(** * nrf24-time-client: the date/time packet decoder and the receive loops

    A shallow embedding of [nrf24-time-client.ino] (the 32-byte packet
    variant) and of the older 10-byte example sketch (function
    [receiveDateTime]).  The target is the Arduino NANO named in the
    sketch's header: [byte] is 8 bits, [int] is 16 bits and
    [unsigned long] is 32 bits.  Integers are [Z] with the wrap-around of
    each C type written out. *)

From Stdlib Require Import String Ascii DecimalString.
From Stdlib Require Import ZArith List Bool Lia.
From Stdlib Require Import Init.Byte.
From Stdlib Require Strings.Byte.
Import ListNotations.
Local Open Scope Z_scope.

(** ** Machine integers *)

Module C.

(** An 8-bit [byte] read as a number, [0 .. 255]. *)
Definition b2z (b : byte) : Z := Z.of_N (Byte.to_N b).

(** Conversion to [uint8_t]: the value modulo 256. *)
Definition to_uint8 (z : Z) : Z := z mod 256.

(** Conversion to the 16-bit signed [int] of the AVR: two's complement
    wrap-around into [-32768 .. 32767]. *)
Definition to_int16 (z : Z) : Z := (z + 32768) mod 65536 - 32768.

(** Conversion to the 16-bit [unsigned int]. *)
Definition to_uint16 (z : Z) : Z := z mod 65536.

(** Conversion to the 32-bit [unsigned long]. *)
Definition to_ulong (z : Z) : Z := z mod 4294967296.

(** The byte holding the low eight bits of a number. *)
Definition z2b (z : Z) : byte :=
  match Byte.of_N (Z.to_N (z mod 256)) with
  | Some b => b
  | None => x00
  end.

End C.

Import C.

(** ** TimeLib's broken-down time *)

(** [tmElements_t]: seven [uint8_t] fields; [Year] is an offset from 1970. *)
Record tmElements_t := mkTm {
  Second : Z;
  Minute : Z;
  Hour : Z;
  Wday : Z;
  Day : Z;
  Month : Z;
  Year : Z
}.

Module TimeLib.

Definition SECS_PER_MIN : Z := 60.
Definition SECS_PER_HOUR : Z := 3600.
Definition SECS_PER_DAY : Z := 86400.

(** Gregorian leap-year rule on the calendar year [1970 + Y]. *)
Definition LEAP_YEAR (Y : Z) : bool :=
  ((1970 + Y) mod 4 =? 0) &&
  (negb ((1970 + Y) mod 100 =? 0) || ((1970 + Y) mod 400 =? 0)).

Definition monthDays : list Z := [31; 28; 31; 30; 31; 30; 31; 31; 30; 31; 30; 31].

(** Number of leap years among the year offsets [0 .. n-1]. *)
Fixpoint leap_years_before (n : nat) : Z :=
  match n with
  | O => 0
  | S k => leap_years_before k + (if LEAP_YEAR (Z.of_nat k) then 1 else 0)
  end.

(** Days of month [i] (counted from 1) in the year of offset [Y]. *)
Definition days_in_month (Y : Z) (i : nat) : Z :=
  if (Nat.eqb i 2) && LEAP_YEAR Y then 29 else nth (i - 1) monthDays 0.

(** Days of the months [1 .. m-1] in the year of offset [Y]. *)
Fixpoint days_before_month (Y : Z) (m : nat) : Z :=
  match m with
  | O => 0
  | S O => 0
  | S k => days_before_month Y k + days_in_month Y k
  end.

(** Modelled from the spec: [makeTime] belongs to the TimeLib library, whose
    source is not part of the sketch.  Section 4.2 describes it as the
    canonical year/month/day/hour/minute/second to seconds-since-epoch
    transform (proleptic Gregorian, no leap seconds), the year being the
    offset from 1970 held in [tmElements_t].  The weekday field is not
    used.  The result is the number of seconds itself, an unbounded [Z]. *)
Definition makeTime (tm : tmElements_t) : Z :=
  (Year tm * 365 + leap_years_before (Z.to_nat (Year tm))) * SECS_PER_DAY
  + days_before_month (Year tm) (Z.to_nat (Month tm)) * SECS_PER_DAY
  + (Day tm - 1) * SECS_PER_DAY
  + Hour tm * SECS_PER_HOUR
  + Minute tm * SECS_PER_MIN
  + Second tm.

End TimeLib.

Import TimeLib.

(** ** The devices around the sketch *)

(** What the sketch does to its surroundings, in program order. *)
Inductive event :=
| RadioStartListening
| RadioStopListening
| RadioRead (data : list byte)
| RtcSet (t : Z)
| SerialPrint (s : string)
| SerialPrintln
| SerialPrintTime (t : Z)
| DigitalWrite (pin : Z) (high : bool)
| Delay (ms : Z).

(** The global variables of the sketch and the state of the radio and of
    the RTC, together with what the surroundings will answer:
    [avail_in] holds the coming answers of [radio.available()],
    [millis_in] the coming readings of [millis()] and [rx_in] the packets
    that the coming calls of [radio.read] deliver. *)
Record World := mkWorld {
  avail_in : list bool;
  millis_in : list Z;
  rx_in : list (list byte);
  listening : bool;
  payload : list byte;
  rtc : Z;
  trace : list event
}.

(** Result of running a piece of the sketch: it has returned [a] in world
    [w], or it is still running in world [w] when the recorded answers (or
    the fuel of a loop) are used up. *)
Inductive outcome (A : Type) :=
| Done (a : A) (w : World)
| Pending (w : World).

Arguments Done {A} a w.
Arguments Pending {A} w.

Definition M (A : Type) : Type := World -> outcome A.

Definition ret {A} (a : A) : M A := fun w => Done a w.

Definition bind {A B} (m : M A) (k : A -> M B) : M B :=
  fun w => match m w with
           | Done a w' => k a w'
           | Pending w' => Pending w'
           end.

Definition pending {A} : M A := fun w => Pending w.

Notation "x <- c ;; k" := (bind c (fun x => k))
  (at level 61, c at next level, right associativity).
Notation "c ;;; k" := (bind c (fun _ => k))
  (at level 61, right associativity).

Definition emit (e : event) : M unit :=
  fun w => Done tt (mkWorld (avail_in w) (millis_in w) (rx_in w)
                            (listening w) (payload w) (rtc w)
                            (trace w ++ [e])).

Definition get_payload : M (list byte) := fun w => Done (payload w) w.

Module Radio.

Definition startListening : M unit :=
  fun w => Done tt (mkWorld (avail_in w) (millis_in w) (rx_in w)
                            true (payload w) (rtc w)
                            (trace w ++ [RadioStartListening])).

Definition stopListening : M unit :=
  fun w => Done tt (mkWorld (avail_in w) (millis_in w) (rx_in w)
                            false (payload w) (rtc w)
                            (trace w ++ [RadioStopListening])).

Definition available : M bool :=
  fun w => match avail_in w with
           | [] => Pending w
           | a :: rest =>
               Done a (mkWorld rest (millis_in w) (rx_in w)
                               (listening w) (payload w) (rtc w) (trace w))
           end.

(** [data] written over the start of the buffer [buf]; no more than the
    buffer holds. *)
Definition overwrite (data buf : list byte) : list byte :=
  firstn (length buf) (data ++ skipn (length data) buf).

(** [radio.read(&payload, sizeof(payload))]. *)
Definition read : M unit :=
  fun w => match rx_in w with
           | [] => Pending w
           | data :: rest =>
               Done tt (mkWorld (avail_in w) (millis_in w) rest
                                (listening w) (overwrite data (payload w))
                                (rtc w) (trace w ++ [RadioRead data]))
           end.

End Radio.

(** [millis()]: the free-running 32-bit millisecond counter. *)
Definition millis : M Z :=
  fun w => match millis_in w with
           | [] => Pending w
           | t :: rest =>
               Done (to_ulong t)
                    (mkWorld (avail_in w) rest (rx_in w)
                             (listening w) (payload w) (rtc w) (trace w))
           end.

(** [RTC.set(t)]. *)
Definition RTC_set (t : Z) : M unit :=
  fun w => Done tt (mkWorld (avail_in w) (millis_in w) (rx_in w)
                            (listening w) (payload w) t
                            (trace w ++ [RtcSet t])).

Definition debug_print (s : string) : M unit := emit (SerialPrint s).
Definition debug_println : M unit := emit SerialPrintln.

Definition PIN_LED : Z := 8.

(** [flash_led(count, onms, offms)]; [delay] takes an [unsigned long], to
    which the [int] times are converted. *)
Fixpoint flash_led_loop (n : nat) (onms offms : Z) : M unit :=
  match n with
  | O => ret tt
  | S k =>
      emit (DigitalWrite PIN_LED true) ;;;
      emit (Delay (to_ulong onms)) ;;;
      emit (DigitalWrite PIN_LED false) ;;;
      emit (Delay (to_ulong offms)) ;;;
      flash_led_loop k onms offms
  end.

Definition flash_led (count onms offms : Z) : M unit :=
  flash_led_loop (Z.to_nat count) onms offms.

(** ** nrf24-time-client.ino *)

(** [payload[i]] as the [int] it is promoted to. *)
Definition at_ (p : list byte) (i : nat) : Z := b2z (nth i p x00).

(** The test [millis() - started > timeout]: the difference is taken in
    [unsigned long], and the [int] on the right is converted to
    [unsigned long] for the comparison. *)
Definition elapsed_gt (now started timeout : Z) : bool :=
  to_ulong (now - started) >? to_ulong timeout.

(** The [while (!radio.available())] loop of [nrf24_receive]; the result is
    [timed_out]. *)
Fixpoint wait_available (fuel : nat) (started timeout : Z) : M bool :=
  match fuel with
  | O => pending
  | S fuel' =>
      avail <- Radio.available ;;
      if avail then ret false
      else
        now <- millis ;;
        if elapsed_gt now started timeout then ret true
        else wait_available fuel' started timeout
  end.

(** Each turn of the loop takes one answer of [radio.available()], so one
    turn more than there are answers is all the loop can make. *)
Definition wait_fuel (w : World) : nat := S (length (avail_in w)).

Definition nrf24_receive (timeout : Z) : M bool :=
  Radio.startListening ;;;
  started <- millis ;;
  timed_out <- (fun w => wait_available (wait_fuel w) started timeout w) ;;
  result <- (if negb timed_out
             then Radio.read ;;; ret true
             else ret false) ;;
  Radio.stopListening ;;;
  ret result.

(** The signature test: 0xfe followed by "TIME". *)
Definition signature_ok (p : list byte) : bool :=
  (at_ p 0 =? 0xfe) && (at_ p 1 =? 0x54) && (at_ p 2 =? 0x49)
  && (at_ p 3 =? 0x4d) && (at_ p 4 =? 0x45).

(** [(hi << 8 | lo) - 1970] stored into a [uint8_t]: [hi] and [lo] are
    promoted to the 16-bit [int], in which the shift and the subtraction
    are made. *)
Definition year_field (hi lo : Z) : Z :=
  to_uint8 (to_int16 (Z.lor (to_int16 (Z.shiftl hi 8)) lo - 1970)).

(** [raw % 7 + 1] stored into a [uint8_t]; [%] is C's remainder. *)
Definition wday_field (raw : Z) : Z := to_uint8 (Z.rem raw 7 + 1).

(** The fields taken from the payload (the assignments to [tm]). *)
Definition payload_tm (p : list byte) : tmElements_t :=
  {| Year := year_field (at_ p 6) (at_ p 5);
     Month := at_ p 7;
     Day := at_ p 8;
     Hour := at_ p 9;
     Minute := at_ p 10;
     Second := at_ p 11;
     Wday := wday_field (at_ p 12) |}.

Definition rtc_set_time_from_payload : M bool :=
  p <- get_payload ;;
  if signature_ok p then
    let tm := payload_tm p in
    let result := makeTime tm in
    RTC_set result ;;;
    ret true
  else
    ret false.

(** The [while (true)] loop of [nrf24_receive_date_time]; [count] is the
    16-bit [unsigned int] counter. *)
Fixpoint receive_date_time_loop (fuel : nat) (count : Z) : M unit :=
  match fuel with
  | O => pending
  | S fuel' =>
      received <- nrf24_receive 1000 ;;
      leave <- (if received then
                  ok <- rtc_set_time_from_payload ;;
                  if ok then debug_print "+" ;;; ret true
                  else debug_print "-" ;;; flash_led 5 10 10 ;;; ret false
                else
                  debug_print "." ;;; flash_led 1 50 50 ;;; ret false) ;;
      if leave then ret tt
      else
        let count := to_uint16 (count + 1) in
        if count =? 30 then
          debug_println ;;; receive_date_time_loop fuel' 0
        else receive_date_time_loop fuel' count
  end.

Definition nrf24_receive_date_time : M unit :=
  (fun w => receive_date_time_loop (wait_fuel w) 0 w) ;;;
  debug_println.

(** ** The older sketch: 10-byte packets, function [receiveDateTime] *)

Module OldClient.

(** The signature test: "tim". *)
Definition signature_ok (p : list byte) : bool :=
  (at_ p 0 =? 0x74) && (at_ p 1 =? 0x69) && (at_ p 2 =? 0x6d).

(** The assignments to the local [tm]; it is declared without an
    initialiser and its [Wday] is never assigned, so that field keeps
    whatever [tm] held on entry. *)
Definition payload_tm (tm : tmElements_t) (p : list byte) : tmElements_t :=
  {| Year := year_field (at_ p 3) (at_ p 4);
     Month := at_ p 5;
     Day := at_ p 6;
     Hour := at_ p 7;
     Minute := at_ p 8;
     Second := at_ p 9;
     Wday := Wday tm |}.

Definition newline : string := String (ascii_of_nat 10) EmptyString.

Definition printDateTime (dt : Z) : M unit := emit (SerialPrintTime dt).

(** The [while (true)] loop; [timeouts] is a 16-bit [int]. *)
Fixpoint receive_loop (fuel : nat) (tm : tmElements_t) (timeouts : Z) : M Z :=
  match fuel with
  | O => pending
  | S fuel' =>
      started <- millis ;;
      timed_out <- (fun w => wait_available (wait_fuel w) started 200 w) ;;
      if negb timed_out then
        Radio.read ;;;
        p <- get_payload ;;
        if signature_ok p then
          let tm := payload_tm tm p in
          let result := makeTime tm in
          emit (SerialPrint (newline ++ "Received: ")) ;;;
          printDateTime result ;;;
          emit SerialPrintln ;;;
          ret result
        else
          emit (SerialPrint (newline ++ "Invalid payload received.")) ;;;
          emit SerialPrintln ;;;
          receive_loop fuel' tm timeouts
      else
        emit (SerialPrint ".") ;;;
        let timeouts := to_int16 (timeouts + 1) in
        if timeouts >=? 25 then
          emit SerialPrintln ;;; receive_loop fuel' tm 0
        else receive_loop fuel' tm timeouts
  end.

Definition receiveDateTime (tm : tmElements_t) : M Z :=
  Radio.startListening ;;;
  (fun w => receive_loop (wait_fuel w) tm 0 w).

End OldClient.

(** ** led_util.cpp and the other [flash_led] of the sketch *)

Module LedUtil.

(** The [for] loop shared by the two functions of led_util.cpp.  The
    [int] arguments are converted at the calls: [digitalWrite] takes the
    pin as a [uint8_t], [delay] the time as an [unsigned long]. *)
Fixpoint flash_loop (n : nat) (pin onms offms : Z) : M unit :=
  match n with
  | O => ret tt
  | S k =>
      emit (DigitalWrite (to_uint8 pin) true) ;;;
      emit (Delay (to_ulong onms)) ;;;
      emit (DigitalWrite (to_uint8 pin) false) ;;;
      emit (Delay (to_ulong offms)) ;;;
      flash_loop k pin onms offms
  end.

(** [flash_led(pin, count, onms, offms)]. *)
Definition flash_led (pin count onms offms : Z) : M unit :=
  flash_loop (Z.to_nat count) pin onms offms.

(** [flash_led(pin, count, ms)]. *)
Definition flash_led_ms (pin count ms : Z) : M unit :=
  flash_loop (Z.to_nat count) pin ms ms.

End LedUtil.

(** [flash_led(count, ms)] of the sketch itself, on [PIN_LED]. *)
Definition flash_led_ms (count ms : Z) : M unit :=
  flash_led_loop (Z.to_nat count) ms ms.

(** ** debug_util: writing a time *)

(** [Serial.print(n)] for an [int]: the decimal digits, with a minus sign
    before a negative number. *)
Definition decimal (n : Z) : string := NilZero.string_of_int (Z.to_int n).

Definition debug_print_int (n : Z) : M unit := emit (SerialPrint (decimal n)).

Section PrintTime.

(** [year(t)], [month(t)], [day(t)], [hour(t)], [minute(t)] and
    [second(t)] belong to TimeLib and are taken as given. *)
Variables year month day hour minute second : Z -> Z.

(** [debug_print(time_t t)]; [printDateTime] of the older sketch has the
    same body. *)
Definition debug_print_time (t : Z) : M unit :=
  debug_print_int (year t) ;;; debug_print "-" ;;;
  debug_print (if month t <? 10 then "0" else "") ;;;
  debug_print_int (month t) ;;; debug_print "-" ;;;
  debug_print (if day t <? 10 then "0" else "") ;;;
  debug_print_int (day t) ;;;
  debug_print " " ;;;
  debug_print (if hour t <? 10 then "0" else "") ;;;
  debug_print_int (hour t) ;;; debug_print ":" ;;;
  debug_print (if minute t <? 10 then "0" else "") ;;;
  debug_print_int (minute t) ;;; debug_print ":" ;;;
  debug_print (if second t <? 10 then "0" else "") ;;;
  debug_print_int (second t).

(** [debug_println(time_t t)]. *)
Definition debug_println_time (t : Z) : M unit :=
  debug_print_time t ;;; debug_println.

End PrintTime.

(** ** The wire format, as the transmitter is to fill it *)

(** The signature of the newer variant: 0xfe, then "TIME". *)
Definition signature : list byte := [xfe; x54; x49; x4d; x45].

(** Modelled from the spec: the transmitter is a separate program and not
    part of the sketch.  The 32-byte packet follows the wire-format table
    (section 6): the signature at offsets 0-4, the 16-bit [year] word with
    its low byte at offset 5 and its high byte at offset 6, month, day,
    hour, minute and second as single bytes at offsets 7-11, the raw
    weekday at offset 12; the 19 bytes left are zero. *)
Definition encode (year month day hour minute second wday : Z) : list byte :=
  signature ++
  [z2b year; z2b (Z.shiftr year 8);
   z2b month; z2b day; z2b hour; z2b minute; z2b second; z2b wday] ++
  repeat x00 19.

(** The signature of the older variant: "tim". *)
Definition old_signature : list byte := [x74; x69; x6d].

(** Modelled from the spec: the 10-byte packet of the older variant
    (section 6): "tim" at offsets 0-2, the [year] word with its high byte
    at offset 3 and its low byte at offset 4, month, day, hour, minute and
    second as single bytes at offsets 5-9. *)
Definition old_encode (year month day hour minute second : Z) : list byte :=
  old_signature ++
  [z2b (Z.shiftr year 8); z2b year;
   z2b month; z2b day; z2b hour; z2b minute; z2b second].

(** A world at start-up: the global buffer is zeroed, the radio is idle,
    nothing has happened yet. *)
Definition boot (size : nat) (av : list bool) (ms : list Z)
           (rx : list (list byte)) (t0 : Z) : World :=
  mkWorld av ms rx false (repeat x00 size) t0 [].

(** ** Vocabulary of the statements *)

(** The world an outcome carries. *)
Definition world_of {A} (o : outcome A) : World :=
  match o with
  | Done _ w => w
  | Pending w => w
  end.

(** [w] with the events [evs] added to its record. *)
Definition add_events (evs : list event) (w : World) : World :=
  mkWorld (avail_in w) (millis_in w) (rx_in w) (listening w) (payload w)
          (rtc w) (trace w ++ evs).

(** The world once [RTC.set(t)] has been made in [w]. *)
Definition rtc_written (t : Z) (w : World) : World :=
  mkWorld (avail_in w) (millis_in w) (rx_in w) (listening w) (payload w) t
          (trace w ++ [RtcSet t]).

(** Number of [RTC.set] calls in a record of events. *)
Fixpoint rtc_sets (tr : list event) : nat :=
  match tr with
  | [] => 0
  | RtcSet _ :: rest => S (rtc_sets rest)
  | _ :: rest => rtc_sets rest
  end.

(** The events of [flash_led]. *)
Fixpoint flash_events (n : nat) (onms offms : Z) : list event :=
  match n with
  | O => []
  | S k => [DigitalWrite PIN_LED true; Delay (to_ulong onms);
            DigitalWrite PIN_LED false; Delay (to_ulong offms)]
           ++ flash_events k onms offms
  end.

(** A world whose buffer holds [p] and where nothing has happened yet. *)
Definition holding (p : list byte) (t0 : Z) : World :=
  mkWorld [] [] [] false p t0 [].

(** The packet of the scenario, carrying the year word 0x0032. *)
Definition scenario_packet : list byte :=
  [xfe; x54; x49; x4d; x45; x32; x00; x07; x18; x0a; x1e; x00; x03]
  ++ repeat x00 19.

(** The packet of the scenario with the year word 2020 = 0x07E4. *)
Definition packet_2020 : list byte :=
  [xfe; x54; x49; x4d; x45; xe4; x07; x07; x18; x0a; x1e; x00; x03]
  ++ repeat x00 19.

(** The packet of the scenario with the lowest bit of 'M' flipped. *)
Definition garbled : list byte :=
  [xfe; x54; x49; x4c; x45; xe4; x07; x07; x18; x0a; x1e; x00; x03]
  ++ repeat x00 19.

(** A start-up in which the first poll times out, the second brings a
    garbled packet and the third the packet of 2020-07-24 10:30:00. *)
Definition three_attempts : World :=
  boot 32 [false; false; true; true]
       [0; 500; 1001; 1002; 2000]
       [garbled; encode 2020 7 24 10 30 0 3] 42.

(** The world in which that start-up ends. *)
Definition three_attempts_end : World :=
  Eval vm_compute in world_of (nrf24_receive_date_time three_attempts).

(** State of the loop seen from its entry world [w]: once it has left, the
    record shows one [RTC.set], made right after the poll that brought the
    accepted packet and followed by the "+" mark only; while it runs, no
    [RTC.set] has been made. *)
Definition loop_post (w : World) (o : outcome unit) : Prop :=
  match o with
  | Done _ w' =>
      exists pre,
        trace w' = trace w ++ pre
                     ++ [RadioStopListening; RtcSet (rtc w'); SerialPrint "+"]
        /\ rtc_sets pre = 0%nat
        /\ signature_ok (payload w') = true
        /\ rtc w' = makeTime (payload_tm (payload w'))
  | Pending w' =>
      exists evs,
        trace w' = trace w ++ evs /\ rtc_sets evs = 0%nat /\ rtc w' = rtc w
  end.

(** The surroundings have no answer left for some question. *)
Definition starved (w : World) : Prop :=
  avail_in w = [] \/ millis_in w = [] \/ rx_in w = [].

(** What a turn of the synchronisation loop that does not leave it
    reports: the "-" mark and five short flashes after a rejected packet,
    the "." mark and one flash after a timeout. *)
Definition failed_turn_events (received : bool) : list event :=
  if received
  then [SerialPrint "-"] ++ flash_events (Z.to_nat 5) 10 10
  else [SerialPrint "."] ++ flash_events (Z.to_nat 1) 50 50.

(** The line end that closes a turn once thirty marks are out, and the
    counter after the turn. *)
Definition turn_end_events (count : Z) : list event :=
  if to_uint16 (count + 1) =? 30 then [SerialPrintln] else [].

Definition next_count (count : Z) : Z :=
  if to_uint16 (count + 1) =? 30 then 0 else to_uint16 (count + 1).

(** Number of "." and "-" marks in a record of events. *)
Fixpoint failure_marks (tr : list event) : nat :=
  match tr with
  | [] => 0
  | SerialPrint s :: rest =>
      if (String.eqb s "." || String.eqb s "-")%bool
      then S (failure_marks rest) else failure_marks rest
  | _ :: rest => failure_marks rest
  end.

(** Number of line ends in a record of events. *)
Fixpoint line_ends (tr : list event) : nat :=
  match tr with
  | [] => 0
  | SerialPrintln :: rest => S (line_ends rest)
  | _ :: rest => line_ends rest
  end.

(** Milliseconds spent in [delay] in a record of events. *)
Fixpoint total_delay (tr : list event) : Z :=
  match tr with
  | [] => 0
  | Delay ms :: rest => ms + total_delay rest
  | _ :: rest => total_delay rest
  end.

(** The level last written to [pin], if any. *)
Fixpoint last_level (pin : Z) (tr : list event) : option bool :=
  match tr with
  | [] => None
  | e :: rest =>
      match last_level pin rest, e with
      | Some v, _ => Some v
      | None, DigitalWrite q v => if q =? pin then Some v else None
      | None, _ => None
      end
  end.

(** The events of the [flash_led] functions on [pin]. *)
Fixpoint flash_events_on (pin : Z) (n : nat) (onms offms : Z) : list event :=
  match n with
  | O => []
  | S k => [DigitalWrite (to_uint8 pin) true; Delay (to_ulong onms);
            DigitalWrite (to_uint8 pin) false; Delay (to_ulong offms)]
           ++ flash_events_on pin k onms offms
  end.

(** A start-up in which thirty-one polls in a row time out. *)
Definition thirty_one_timeouts : World :=
  boot 32 (repeat false 31) (concat (repeat [0; 2000] 31)) [] 0.

(** The world in which those thirty-one timeouts end. *)
Definition thirty_one_timeouts_end : World :=
  Eval vm_compute in world_of (nrf24_receive_date_time thirty_one_timeouts).

(** State of the loop of [receiveDateTime] seen from a world [w] it has
    passed: the radio and the RTC are as in [w], the buffer has kept its
    size, nothing recorded since is an [RTC.set] or a [stopListening], and
    a returned timestamp is the one decoded from an accepted buffer. *)
Definition old_loop_post (tm : tmElements_t) (w : World) (o : outcome Z)
  : Prop :=
  listening (world_of o) = listening w
  /\ rtc (world_of o) = rtc w
  /\ length (payload (world_of o)) = length (payload w)
  /\ (exists evs,
         trace (world_of o) = trace w ++ evs
         /\ rtc_sets evs = 0%nat /\ ~ In RadioStopListening evs)
  /\ match o with
     | Done t w' =>
         OldClient.signature_ok (payload w') = true
         /\ t = makeTime (OldClient.payload_tm tm (payload w'))
     | Pending _ => True
     end.

(** The characters written by the [Serial.print] calls of a record. *)
Fixpoint printed_text (tr : list event) : string :=
  match tr with
  | [] => EmptyString
  | SerialPrint s :: rest => (s ++ printed_text rest)%string
  | _ :: rest => printed_text rest
  end.

(** A start-up of the older sketch: one poll times out, then the packet
    of 2023-01-02 03:04:05 comes in. *)
Definition old_start : World :=
  boot 10 [false; true] [0; 300; 301] [old_encode 2023 1 2 3 4 5] 7.

(** The world in which [receiveDateTime] returns from that start-up. *)
Definition old_start_end : World :=
  Eval vm_compute in
    world_of (OldClient.receiveDateTime (mkTm 0 0 0 0 0 0 0) old_start).

(** Three calls of the poller.  In the first the radio is found listening
    and a packet comes at the second check; in the second the radio stays
    silent past the timeout; in the third the clock gives no reading after
    the first. *)
Definition poll_with_packet : World :=
  mkWorld [false; true] [0; 10] [scenario_packet] true (repeat x00 32) 0 [].

Definition poll_with_packet_end : World :=
  Eval vm_compute in world_of (nrf24_receive 1000 poll_with_packet).

Definition poll_in_silence : World :=
  boot 32 [false; false] [0; 10; 1001] [] 0.

Definition poll_in_silence_end : World :=
  Eval vm_compute in world_of (nrf24_receive 1000 poll_in_silence).

Definition poll_cut_short : World :=
  boot 32 [false; false] [0] [scenario_packet] 0.

Definition poll_cut_short_end : World :=
  Eval vm_compute in world_of (nrf24_receive 1000 poll_cut_short).

(** The radio as a record of events leaves it, from the state [s]: [None]
    if the record reads a packet while the radio is idle, or does anything
    but drive the radio while it listens. *)
Fixpoint radio_protocol (s : bool) (tr : list event) : option bool :=
  match tr with
  | [] => Some s
  | RadioStartListening :: rest => radio_protocol true rest
  | RadioStopListening :: rest => radio_protocol false rest
  | RadioRead _ :: rest => if s then radio_protocol s rest else None
  | _ :: rest => if s then None else radio_protocol s rest
  end.

(** Number of polls started in a record of events. *)
Fixpoint polls (tr : list event) : nat :=
  match tr with
  | [] => 0
  | RadioStartListening :: rest => S (polls rest)
  | _ :: rest => polls rest
  end.

(** The record of a poll that returns, with the packet [d] or without
    one. *)
Definition poll_record (got : option (list byte)) : list event :=
  match got with
  | Some d => [RadioStartListening; RadioRead d; RadioStopListening]
  | None => [RadioStartListening; RadioStopListening]
  end.

Definition got_packet (got : option (list byte)) : bool :=
  match got with
  | Some _ => true
  | None => false
  end.

(** The records the synchronisation loop can leave when entered with the
    counter at [count]: any number of failed turns, then either a poll
    still under way or the turn that accepts a packet.  The flag tells
    whether the loop has been left. *)
Inductive sync_record : Z -> list event -> bool -> Prop :=
| sync_cut (count : Z) :
    sync_record count [RadioStartListening] false
| sync_accept (count : Z) (d : list byte) (t : Z) :
    sync_record count
                [RadioStartListening; RadioRead d; RadioStopListening;
                 RtcSet t; SerialPrint "+"]
                true
| sync_fail (count : Z) (got : option (list byte))
            (rest : list event) (left : bool) :
    sync_record (next_count count) rest left ->
    sync_record count
                (poll_record got ++ failed_turn_events (got_packet got)
                 ++ turn_end_events count ++ rest)
                left.

(** Whether an outcome is a return. *)
Definition is_done {A} (o : outcome A) : bool :=
  match o with
  | Done _ _ => true
  | Pending _ => false
  end.

(** What keeps a run that started in [w] waiting in [w']: the radio owes
    an answer, the clock owes a reading, or the radio has reported data
    and there is no packet to read. *)
Definition cut_short (w w' : World) : Prop :=
  avail_in w' = []
  \/ millis_in w' = []
  \/ (rx_in w' = []
      /\ exists used, avail_in w = used ++ true :: avail_in w').

(** A start-up in which the radio reports data and has no packet. *)
Definition data_without_packet : World :=
  boot 32 [false; true; false] [0; 5; 6] [] 0.

Definition data_without_packet_end : World :=
  Eval vm_compute in world_of (nrf24_receive_date_time data_without_packet).

(** The character of a decimal digit. *)
Definition digit (d : Z) : ascii := ascii_of_nat (48 + Z.to_nat d).

(** A number from 0 to 99 in two digits, one from 0 to 9999 in four. *)
Definition two_digits (v : Z) : string :=
  String (digit (v / 10)) (String (digit (v mod 10)) EmptyString).

Definition four_digits (y : Z) : string :=
  String (digit (y / 1000))
    (String (digit (y / 100 mod 10))
       (String (digit (y / 10 mod 10))
          (String (digit (y mod 10)) EmptyString))).

(** A time as "YYYY-MM-DD HH:MM:SS". *)
Definition time_text (y mo d h mi s : Z) : string :=
  (four_digits y ++ "-" ++ two_digits mo ++ "-" ++ two_digits d ++ " "
   ++ two_digits h ++ ":" ++ two_digits mi ++ ":" ++ two_digits s)%string.

(** * Properties *)

(** ** The calendar transform *)

Example makeTime_2020 :
  makeTime (mkTm 0 30 10 4 24 7 50) = 1595586600.
Proof. reflexivity. Qed.

Example makeTime_epoch :
  makeTime (mkTm 0 0 0 5 1 1 0) = 0.
Proof. reflexivity. Qed.


(** ** Bytes and machine arithmetic *)

Lemma b2z_range (b : byte) : 0 <= b2z b <= 255.
Proof.
  unfold b2z. pose proof (Byte.to_N_bounded b). lia.
Qed.

Lemma b2z_inj (a b : byte) : b2z a = b2z b -> a = b.
Proof.
  unfold b2z. intros H. apply N2Z.inj in H.
  assert (E : Some a = Some b).
  { rewrite <- (Byte.of_to_N a), <- (Byte.of_to_N b), H. reflexivity. }
  now inversion E.
Qed.

Lemma b2z_z2b (z : Z) : b2z (z2b z) = z mod 256.
Proof.
  unfold b2z, z2b.
  destruct (Byte.of_N (Z.to_N (z mod 256))) as [b|] eqn:E.
  - apply Byte.to_of_N in E. rewrite E.
    apply Z2N.id. apply Z.mod_pos_bound. lia.
  - apply Byte.of_N_None_iff in E.
    pose proof (Z.mod_pos_bound z 256). lia.
Qed.

Lemma b2z_z2b_small (z : Z) : 0 <= z <= 255 -> b2z (z2b z) = z.
Proof.
  intros H. rewrite b2z_z2b. apply Z.mod_small. lia.
Qed.

Lemma to_int16_small (z : Z) : -32768 <= z <= 32767 -> to_int16 z = z.
Proof.
  intros H. unfold to_int16. rewrite Z.mod_small; lia.
Qed.

Lemma to_int16_mod256 (z : Z) : to_int16 z mod 256 = z mod 256.
Proof.
  unfold to_int16. Z.div_mod_to_equations. lia.
Qed.

Lemma to_int16_multiple (m : Z) : exists k, to_int16 (m * 256) = k * 256.
Proof.
  unfold to_int16.
  exists (m - 256 * ((m * 256 + 32768) / 65536)).
  Z.div_mod_to_equations. lia.
Qed.

(** A byte or-ed under a multiple of 256 is added to it. *)
Lemma lor_low_byte (k lo : Z) :
  0 <= lo <= 255 -> Z.lor (k * 256) lo = k * 256 + lo.
Proof.
  intros H.
  assert (D : Z.land (k * 256) lo = 0).
  { apply Z.bits_inj'. intros n Hn.
    rewrite Z.land_spec, Z.bits_0.
    destruct (Z.ltb_spec n 8) as [Hlt|Hge].
    - change 256 with (2 ^ 8). rewrite Z.mul_pow2_bits_low by lia.
      reflexivity.
    - assert (L : Z.testbit lo n = false).
      { destruct (Z.eq_dec lo 0) as [->|Hz].
        - apply Z.bits_0.
        - apply Z.bits_above_log2; [lia|].
          assert (Z.log2 lo < 8) by (apply Z.log2_lt_pow2; lia). lia. }
      rewrite L. apply andb_false_r. }
  rewrite <- Z.lxor_lor by exact D.
  symmetry. apply Z.add_nocarry_lxor. exact D.
Qed.

(** What the year expression leaves in the 8-bit field: the 16-bit word
    less 1970, modulo 256. *)
Lemma year_field_mod (hi lo : Z) :
  0 <= lo <= 255 ->
  year_field hi lo = (hi * 256 + lo - 1970) mod 256.
Proof.
  intros Hlo. unfold year_field, to_uint8.
  rewrite to_int16_mod256.
  rewrite Z.shiftl_mul_pow2 by lia. change (2 ^ 8) with 256.
  destruct (to_int16_multiple hi) as [k Hk]. rewrite Hk.
  rewrite lor_low_byte by exact Hlo.
  assert (E : to_int16 (hi * 256) mod 256 = (hi * 256) mod 256)
    by apply to_int16_mod256.
  rewrite Hk in E.
  Z.div_mod_to_equations. lia.
Qed.

(** The high byte of the year word has no part in the stored field. *)
Lemma year_field_low_only (hi lo : Z) :
  0 <= lo <= 255 -> year_field hi lo = (lo + 78) mod 256.
Proof.
  intros Hlo. rewrite year_field_mod by exact Hlo.
  Z.div_mod_to_equations. lia.
Qed.

(** ** The signature test *)

Lemma at_is (p : list byte) (i : nat) (c : byte) :
  at_ p i = b2z c <-> nth i p x00 = c.
Proof.
  unfold at_. split.
  - apply b2z_inj.
  - intros ->. reflexivity.
Qed.

Lemma signature_ok_iff (p : list byte) :
  signature_ok p = true <-> firstn 5 p = signature.
Proof.
  unfold signature_ok, signature.
  rewrite !andb_true_iff, !Z.eqb_eq.
  change 0xfe with (b2z xfe). change 0x54 with (b2z x54).
  change 0x49 with (b2z x49). change 0x4d with (b2z x4d).
  change 0x45 with (b2z x45).
  rewrite !at_is.
  split.
  - intros [[[[H0 H1] H2] H3] H4].
    destruct p as [|a0 [|a1 [|a2 [|a3 [|a4 p]]]]]; simpl in *;
      try discriminate; congruence.
  - intros H.
    destruct p as [|a0 [|a1 [|a2 [|a3 [|a4 p]]]]]; simpl in H;
      try discriminate.
    injection H as -> -> -> -> ->. simpl. auto.
Qed.

Lemma signature_ok_false_iff (p : list byte) :
  signature_ok p = false <-> firstn 5 p <> signature.
Proof.
  rewrite <- signature_ok_iff. destruct (signature_ok p); split; congruence.
Qed.

Lemma old_signature_ok_iff (p : list byte) :
  OldClient.signature_ok p = true <-> firstn 3 p = old_signature.
Proof.
  unfold OldClient.signature_ok, old_signature.
  rewrite !andb_true_iff, !Z.eqb_eq.
  change 0x74 with (b2z x74). change 0x69 with (b2z x69).
  change 0x6d with (b2z x6d).
  rewrite !at_is.
  split.
  - intros [[H0 H1] H2].
    destruct p as [|a0 [|a1 [|a2 p]]]; simpl in *;
      try discriminate; congruence.
  - intros H.
    destruct p as [|a0 [|a1 [|a2 p]]]; simpl in H; try discriminate.
    injection H as -> -> ->. simpl. auto.
Qed.

(** ** The decoder [rtc_set_time_from_payload] *)

Lemma decoder_accepts (w : World) :
  signature_ok (payload w) = true ->
  rtc_set_time_from_payload w =
  Done true (rtc_written (makeTime (payload_tm (payload w))) w).
Proof.
  intros H. unfold rtc_set_time_from_payload, bind, get_payload.
  rewrite H. reflexivity.
Qed.

Lemma decoder_rejects (w : World) :
  signature_ok (payload w) = false ->
  rtc_set_time_from_payload w = Done false w.
Proof.
  intros H. unfold rtc_set_time_from_payload, bind, get_payload.
  rewrite H. reflexivity.
Qed.

(** C1: for every 32-byte payload buffer the decoder returns true exactly
    when the first five bytes are 0xFE 'T' 'I' 'M' 'E'; on a match it
    runs the whole decode and commits the timestamp, on any mismatch it
    returns false and leaves the world as it was (it always returns, and
    nothing is decoded in part). *)
Theorem C1_signature_gate (w : World) :
  length (payload w) = 32%nat ->
  (firstn 5 (payload w) = signature <->
   exists w', rtc_set_time_from_payload w = Done true w')
  /\ (firstn 5 (payload w) = signature ->
      rtc_set_time_from_payload w =
      Done true (rtc_written (makeTime (payload_tm (payload w))) w))
  /\ (firstn 5 (payload w) <> signature ->
      rtc_set_time_from_payload w = Done false w).
Proof.
  intros _.
  assert (A : firstn 5 (payload w) = signature ->
              rtc_set_time_from_payload w =
              Done true (rtc_written (makeTime (payload_tm (payload w))) w)).
  { intros H. apply decoder_accepts, signature_ok_iff, H. }
  assert (R : firstn 5 (payload w) <> signature ->
              rtc_set_time_from_payload w = Done false w).
  { intros H. apply decoder_rejects, signature_ok_false_iff, H. }
  repeat split; try assumption.
  - intros H. eexists. apply A, H.
  - intros [w' H].
    destruct (list_eq_dec Byte.byte_eq_dec (firstn 5 (payload w)) signature)
      as [E|N]; [exact E|].
    rewrite (R N) in H. discriminate.
Qed.

Lemma C1_signature_gate_witness :
  length (payload (holding (encode 2020 7 24 10 30 0 3) 0)) = 32%nat
  /\ rtc_set_time_from_payload (holding (encode 2020 7 24 10 30 0 3) 0) =
     Done true (rtc_written 1595586600
                  (holding (encode 2020 7 24 10 30 0 3) 0)).
Proof.
  split; [reflexivity|].
  apply (proj1 (proj2 (C1_signature_gate
                         (holding (encode 2020 7 24 10 30 0 3) 0)
                         eq_refl))).
  reflexivity.
Defined.

(** C7: a buffer one of whose first five bytes differs from the signature
    in at least one bit is rejected: the decoder returns false and the
    world, with the time held by the RTC and the record of [RTC.set]
    calls, is exactly as before. *)
Theorem C7_rejection_writes_nothing (w : World) :
  (exists (i : nat) (j : Z),
      (i < 5)%nat /\
      Z.testbit (at_ (payload w) i) j <> Z.testbit (at_ signature i) j) ->
  rtc_set_time_from_payload w = Done false w
  /\ (forall b w', rtc_set_time_from_payload w = Done b w' ->
                   b = false /\ rtc w' = rtc w /\ trace w' = trace w).
Proof.
  intros (i & j & Hi & Hbit).
  assert (R : rtc_set_time_from_payload w = Done false w).
  { apply decoder_rejects.
    destruct (signature_ok (payload w)) eqn:E; [|reflexivity].
    exfalso. apply Hbit.
    unfold signature_ok in E.
    rewrite !andb_true_iff, !Z.eqb_eq in E.
    destruct E as [[[[H0 H1] H2] H3] H4].
    destruct i as [|[|[|[|[|i]]]]]; try lia.
    - rewrite H0. reflexivity.
    - rewrite H1. reflexivity.
    - rewrite H2. reflexivity.
    - rewrite H3. reflexivity.
    - rewrite H4. reflexivity. }
  split; [exact R|].
  intros b w' H. rewrite R in H. inversion H. subst. auto.
Qed.

Lemma C7_rejection_writes_nothing_witness :
  rtc_set_time_from_payload (holding garbled 42) =
  Done false (holding garbled 42).
Proof.
  apply (C7_rejection_writes_nothing (holding garbled 42)).
  exists 3%nat, 0. split; [lia|]. vm_compute. discriminate.
Defined.

(** C8: the weekday stored from the byte at offset 12 is
    [raw mod 7 + 1]: it lies in [1 .. 7], raw values 0 .. 6 give 1 .. 7 in
    order, larger ones wrap modulo 7, and 0, 6, 7, 13, 255 give
    1, 7, 1, 7, 4. *)
Theorem C8_weekday_mapping (p : list byte) :
  Wday (payload_tm p) = at_ p 12 mod 7 + 1
  /\ 1 <= Wday (payload_tm p) <= 7
  /\ (at_ p 12 <= 6 -> Wday (payload_tm p) = at_ p 12 + 1)
  /\ (7 <= at_ p 12 -> Wday (payload_tm p) = wday_field (at_ p 12 - 7))
  /\ map wday_field [0; 1; 2; 3; 4; 5; 6] = [1; 2; 3; 4; 5; 6; 7]
  /\ map wday_field [0; 6; 7; 13; 255] = [1; 7; 1; 7; 4].
Proof.
  assert (B : 0 <= at_ p 12 <= 255) by apply b2z_range.
  assert (E : forall r, 0 <= r -> wday_field r = r mod 7 + 1).
  { intros r Hr. unfold wday_field, to_uint8.
    rewrite Z.rem_mod_nonneg by lia.
    pose proof (Z.mod_pos_bound r 7).
    apply Z.mod_small. lia. }
  simpl Wday. rewrite !E by lia.
  repeat split.
  - pose proof (Z.mod_pos_bound (at_ p 12) 7). lia.
  - pose proof (Z.mod_pos_bound (at_ p 12) 7). lia.
  - intros H. rewrite Z.mod_small by lia. reflexivity.
  - intros H. rewrite E by lia. f_equal.
    Z.div_mod_to_equations. lia.
Qed.

(** ** The elapsed-time test of the poller *)

(** C5: with the start reading [started] and a later reading taken [e]
    milliseconds after it, the counter having wrapped or not, the test
    [millis() - started > timeout] made in 32-bit unsigned arithmetic holds
    exactly when more than [timeout] milliseconds have passed. *)
Theorem C5_elapsed_test_wraps (started e timeout : Z) :
  0 <= started < 4294967296 ->
  0 <= e < 4294967296 ->
  0 <= timeout <= 32767 ->
  (elapsed_gt (to_ulong (started + e)) started timeout = true <-> timeout < e).
Proof.
  intros Hs He Ht. unfold elapsed_gt, to_ulong.
  rewrite Z.gtb_ltb, Z.ltb_lt.
  rewrite (Z.mod_small timeout) by lia.
  assert (D : ((started + e) mod 4294967296 - started) mod 4294967296 = e).
  { Z.div_mod_to_equations. lia. }
  rewrite D. reflexivity.
Qed.

Lemma C5_elapsed_test_wraps_witness :
  (elapsed_gt 705 4294967000 1000 = true <-> 1000 < 1001)
  /\ (elapsed_gt 704 4294967000 1000 = true <-> 1000 < 1000).
Proof.
  split.
  - apply (C5_elapsed_test_wraps 4294967000 1001 1000); lia.
  - apply (C5_elapsed_test_wraps 4294967000 1000 1000); lia.
Defined.

(** ** Running the sketch: general facts *)

Lemma rtc_sets_app (a b : list event) :
  rtc_sets (a ++ b) = (rtc_sets a + rtc_sets b)%nat.
Proof.
  induction a as [|e a IH]; [reflexivity|].
  destruct e; simpl; rewrite IH; reflexivity.
Qed.

Lemma bind_unfold {A B} (m : M A) (k : A -> M B) (w : World) :
  bind m k w = match m w with
               | Done a w' => k a w'
               | Pending w' => Pending w'
               end.
Proof. reflexivity. Qed.

Lemma emit_done (e : event) (w : World) :
  emit e w = Done tt (add_events [e] w).
Proof. reflexivity. Qed.

Lemma add_events_nil (w : World) : add_events [] w = w.
Proof.
  destruct w. unfold add_events. simpl. rewrite app_nil_r. reflexivity.
Qed.

Lemma add_events_app (a b : list event) (w : World) :
  add_events b (add_events a w) = add_events (a ++ b) w.
Proof.
  unfold add_events. simpl. rewrite app_assoc. reflexivity.
Qed.

Lemma flash_led_loop_done (n : nat) (onms offms : Z) (w : World) :
  flash_led_loop n onms offms w
  = Done tt (add_events (flash_events n onms offms) w).
Proof.
  revert w. induction n as [|n IH]; intros w.
  - simpl. unfold ret. rewrite add_events_nil. reflexivity.
  - cbn [flash_led_loop flash_events].
    repeat (rewrite bind_unfold, emit_done; cbv beta iota).
    rewrite IH, !add_events_app. reflexivity.
Qed.

Lemma flash_events_no_set (n : nat) (onms offms : Z) :
  rtc_sets (flash_events n onms offms) = 0%nat.
Proof.
  induction n as [|n IH]; [reflexivity|exact IH].
Qed.

(** Running one [debug_print] or one [flash_led] at the head of a
    sequence. *)
Ltac mark_step :=
  rewrite bind_unfold; unfold debug_print; rewrite emit_done;
  cbv beta iota.

Ltac flash_step :=
  rewrite bind_unfold; unfold flash_led; rewrite flash_led_loop_done;
  unfold ret at 1; cbv beta iota.

(** ** The poller [nrf24_receive] *)

(** The waiting loop touches nothing but the recorded answers it uses up. *)
Lemma wait_available_frame (fuel : nat) (started timeout : Z) (w : World) :
  let w' := world_of (wait_available fuel started timeout w) in
  listening w' = listening w /\ payload w' = payload w /\ rtc w' = rtc w
  /\ rx_in w' = rx_in w /\ trace w' = trace w.
Proof.
  revert w. induction fuel as [|fuel IH]; intros w; cbn zeta.
  - simpl. auto.
  - cbn [wait_available]. rewrite bind_unfold. unfold Radio.available.
    destruct (avail_in w) as [|a av] eqn:Ea; [simpl; auto|].
    destruct a; [simpl; auto|].
    rewrite bind_unfold. unfold millis. cbn [millis_in].
    destruct (millis_in w) as [|t ms] eqn:Em; [simpl; auto|].
    destruct (elapsed_gt (to_ulong t) started timeout); [simpl; auto|].
    match goal with
    | |- context [wait_available fuel started timeout ?w1] =>
        specialize (IH w1); cbn zeta in IH; simpl in IH; exact IH
    end.
Qed.

(** What a call of the poller does: if it returns, the radio has been
    switched to listening and back, at most one packet has been read in
    between, and the RTC is untouched; while it has not returned, the radio
    is listening. *)
Lemma nrf24_receive_spec (timeout : Z) (w : World) :
  match nrf24_receive timeout w with
  | Done r w' =>
      listening w' = false /\ rtc w' = rtc w /\
      ((r = true /\ exists d,
           trace w' = trace w ++
                      [RadioStartListening; RadioRead d; RadioStopListening]
           /\ payload w' = Radio.overwrite d (payload w))
       \/ (r = false /\
           trace w' = trace w ++ [RadioStartListening; RadioStopListening]
           /\ payload w' = payload w))
  | Pending w' =>
      listening w' = true /\ rtc w' = rtc w /\ payload w' = payload w
      /\ trace w' = trace w ++ [RadioStartListening]
  end.
Proof.
  unfold nrf24_receive. rewrite bind_unfold. unfold Radio.startListening.
  rewrite bind_unfold. unfold millis at 1. cbn [millis_in].
  destruct (millis_in w) as [|t ms] eqn:Em; [simpl; auto|].
  rewrite bind_unfold.
  match goal with
  | |- context [wait_available ?f ?s ?t0 ?w1] =>
      pose proof (wait_available_frame f s t0 w1) as F;
      destruct (wait_available f s t0 w1) as [timed_out w2|w2]
  end; cbn zeta in F; simpl in F;
    destruct F as (Fl & Fp & Fr & Fx & Ft).
  - destruct timed_out; cbn [negb]; rewrite bind_unfold.
    + unfold ret at 1. rewrite bind_unfold. unfold Radio.stopListening.
      unfold ret. simpl. rewrite Fr, Fp, Ft. repeat split; auto.
      right. rewrite <- !app_assoc. simpl. auto.
    + rewrite bind_unfold. unfold Radio.read.
      destruct (rx_in w2) as [|d rx] eqn:Er.
      * rewrite Fl, Fp, Fr, Ft. auto.
      * unfold ret at 1. rewrite bind_unfold. unfold Radio.stopListening.
        unfold ret. simpl. rewrite Fr, Fp, Ft. repeat split; auto.
        left. split; [reflexivity|]. exists d.
        rewrite <- !app_assoc. simpl. auto.
  - rewrite Fl, Fp, Fr, Ft. auto.
Qed.

(** C10: the poller asks the radio before it looks at the clock.  At any
    turn of its loop an answer "available" ends the wait without a
    timeout whatever the clock, the start value and the timeout are; a call
    made when a packet is already waiting reads it and returns true for
    every timeout, 0 included. *)
Theorem C10_available_checked_first
        (timeout : Z) (w : World) (av : list bool)
        (t : Z) (ms : list Z) (d : list byte) (rx : list (list byte)) :
  avail_in w = true :: av ->
  millis_in w = t :: ms ->
  rx_in w = d :: rx ->
  nrf24_receive timeout w =
  Done true
       (mkWorld av ms rx false (Radio.overwrite d (payload w)) (rtc w)
                (trace w ++
                 [RadioStartListening; RadioRead d; RadioStopListening]))
  /\ (forall fuel started w0 rest,
         avail_in w0 = true :: rest ->
         wait_available (S fuel) started timeout w0 =
         Done false
              (mkWorld rest (millis_in w0) (rx_in w0) (listening w0)
                       (payload w0) (rtc w0) (trace w0))).
Proof.
  intros Ha Hm Hr. split.
  - unfold nrf24_receive, wait_fuel.
    rewrite bind_unfold. unfold Radio.startListening.
    rewrite bind_unfold. unfold millis. cbn [millis_in]. rewrite Hm.
    rewrite bind_unfold. cbn [avail_in length wait_available].
    rewrite bind_unfold. unfold Radio.available. cbn [avail_in].
    rewrite Ha. unfold ret at 1. cbn [negb].
    rewrite !bind_unfold. unfold Radio.read. cbn [rx_in]. rewrite Hr.
    unfold ret at 1. rewrite bind_unfold. unfold Radio.stopListening, ret.
    simpl. rewrite <- !app_assoc. reflexivity.
  - intros fuel started w0 rest H0.
    cbn [wait_available]. rewrite bind_unfold. unfold Radio.available.
    rewrite H0. reflexivity.
Qed.

Lemma C10_available_checked_first_witness :
  nrf24_receive 0 (boot 32 [true] [4294967295] [scenario_packet] 0) =
  Done true
       (mkWorld [] [] [] false scenario_packet 0
                [RadioStartListening; RadioRead scenario_packet;
                 RadioStopListening]).
Proof.
  apply (proj1 (C10_available_checked_first 0
                  (boot 32 [true] [4294967295] [scenario_packet] 0)
                  [] 4294967295 [] scenario_packet []
                  eq_refl eq_refl eq_refl)).
Defined.

(** ** The synchronisation loop [nrf24_receive_date_time] *)

Lemma loop_post_extend (w w1 : World) (evs : list event) (o : outcome unit) :
  trace w1 = trace w ++ evs ->
  rtc_sets evs = 0%nat ->
  rtc w1 = rtc w ->
  loop_post w1 o -> loop_post w o.
Proof.
  intros Ht Hs Hr. destruct o as [[] w'|w']; simpl.
  - intros (pre & Et & Es & Ok & Er). exists (evs ++ pre).
    rewrite Et, Ht, rtc_sets_app, Hs, Es, <- !app_assoc. auto.
  - intros (evs' & Et & Es & Er). exists (evs ++ evs').
    rewrite Et, Ht, rtc_sets_app, Hs, Es, <- !app_assoc, Er. auto.
Qed.

(** The end of a turn that does not leave the loop. *)
Lemma loop_continue (fuel : nat) (count : Z) (w w1 : World)
      (evs : list event) :
  (forall c v, loop_post v (receive_date_time_loop fuel c v)) ->
  trace w1 = trace w ++ evs ->
  rtc_sets evs = 0%nat ->
  rtc w1 = rtc w ->
  loop_post w
    ((let count := to_uint16 (count + 1) in
      if count =? 30 then
        debug_println ;;; receive_date_time_loop fuel 0
      else receive_date_time_loop fuel count) w1).
Proof.
  intros IH Ht Hs Hr. cbv zeta.
  destruct (to_uint16 (count + 1) =? 30).
  - rewrite bind_unfold. unfold debug_println. rewrite emit_done.
    cbv beta iota.
    apply (loop_post_extend w (add_events [SerialPrintln] w1)
                            (evs ++ [SerialPrintln])).
    + cbn [trace add_events]. rewrite Ht, <- app_assoc. reflexivity.
    + rewrite rtc_sets_app, Hs. reflexivity.
    + exact Hr.
    + apply IH.
  - apply (loop_post_extend w w1 evs); auto.
Qed.

Lemma receive_date_time_loop_spec (fuel : nat) :
  forall (count : Z) (w : World),
    loop_post w (receive_date_time_loop fuel count w).
Proof.
  induction fuel as [|fuel IH]; intros count w.
  - simpl. exists []. rewrite app_nil_r. auto.
  - cbn [receive_date_time_loop]. rewrite bind_unfold.
    pose proof (nrf24_receive_spec 1000 w) as P.
    destruct (nrf24_receive 1000 w) as [received w1|w1].
    2:{ destruct P as (_ & Pr & _ & Pt).
        exists [RadioStartListening]. auto. }
    destruct P as (Pl & Pr & P).
    rewrite bind_unfold.
    destruct received.
    + destruct P as [(_ & d & Pt & Pp)|(X & _)]; [|discriminate].
      rewrite bind_unfold.
      destruct (signature_ok (payload w1)) eqn:Sig.
      * rewrite (decoder_accepts w1 Sig).
        rewrite bind_unfold. unfold debug_print. rewrite emit_done.
        unfold ret. simpl.
        exists [RadioStartListening; RadioRead d].
        rewrite Pt, <- !app_assoc. simpl. auto.
      * rewrite (decoder_rejects w1 Sig).
        mark_step. flash_step.
        rewrite !add_events_app.
        apply (loop_continue fuel count w _
                 ([RadioStartListening; RadioRead d; RadioStopListening]
                  ++ [SerialPrint "-"] ++ flash_events (Z.to_nat 5) 10 10)
                 IH).
        -- cbn [trace add_events]. rewrite Pt, <- !app_assoc. reflexivity.
        -- rewrite !rtc_sets_app, flash_events_no_set. reflexivity.
        -- exact Pr.
    + destruct P as [(X & _)|(_ & Pt & Pp)]; [discriminate|].
      mark_step. flash_step.
      rewrite !add_events_app.
      apply (loop_continue fuel count w _
               ([RadioStartListening; RadioStopListening]
                ++ [SerialPrint "."] ++ flash_events (Z.to_nat 1) 50 50)
               IH).
      * cbn [trace add_events]. rewrite Pt, <- !app_assoc. reflexivity.
      * rewrite !rtc_sets_app, flash_events_no_set. reflexivity.
      * exact Pr.
Qed.

(** C4: a run of [nrf24_receive_date_time] that returns has called
    [RTC.set] exactly once, however many timeouts and rejected packets came
    before: the call is made right after the poll that brought the first
    accepted packet, with the timestamp decoded from it, and only the "+"
    mark and the line end follow it before the return.  A run that has not
    returned has not called [RTC.set], and no state the run passes through
    has more than one call behind it. *)
Theorem C4_commit_exactly_once (w : World) :
  (forall w',
      nrf24_receive_date_time w = Done tt w' ->
      exists pre t,
        trace w' = trace w ++ pre
                     ++ [RadioStopListening; RtcSet t; SerialPrint "+";
                         SerialPrintln]
        /\ rtc_sets pre = 0%nat
        /\ rtc_sets (pre ++ [RadioStopListening; RtcSet t; SerialPrint "+";
                             SerialPrintln]) = 1%nat
        /\ signature_ok (payload w') = true
        /\ t = makeTime (payload_tm (payload w'))
        /\ rtc w' = t)
  /\ (forall w',
         nrf24_receive_date_time w = Pending w' ->
         exists evs,
           trace w' = trace w ++ evs /\ rtc_sets evs = 0%nat
           /\ rtc w' = rtc w)
  /\ (forall evs evs',
         trace (world_of (nrf24_receive_date_time w)) = trace w ++ evs ++ evs' ->
         (rtc_sets evs <= 1)%nat).
Proof.
  unfold nrf24_receive_date_time. rewrite bind_unfold.
  pose proof (receive_date_time_loop_spec (wait_fuel w) 0 w) as L.
  destruct (receive_date_time_loop (wait_fuel w) 0 w) as [[] w1|w1];
    simpl in L.
  - destruct L as (pre & Et & Es & Ok & Er).
    unfold debug_println. rewrite emit_done.
    assert (T : trace (add_events [SerialPrintln] w1) =
                trace w ++ pre ++ [RadioStopListening; RtcSet (rtc w1);
                                   SerialPrint "+"; SerialPrintln]).
    { cbn [trace add_events]. rewrite Et, <- !app_assoc. reflexivity. }
    assert (C : rtc_sets (pre ++ [RadioStopListening; RtcSet (rtc w1);
                                  SerialPrint "+"; SerialPrintln]) = 1%nat).
    { rewrite rtc_sets_app, Es. reflexivity. }
    split; [|split].
    + intros w' H. inversion H; subst w'. clear H.
      exists pre, (rtc w1). rewrite T. cbn [payload rtc add_events].
      repeat split; auto.
    + intros w' H. discriminate.
    + intros evs evs' H. cbn [world_of] in H. rewrite T in H.
      apply app_inv_head in H. rewrite H, rtc_sets_app in C. lia.
  - destruct L as (evs0 & Et & Es & Er).
    split; [|split].
    + intros w' H. discriminate.
    + intros w' H. inversion H; subst w'. exists evs0. auto.
    + intros evs evs' H. cbn [world_of] in H. rewrite Et in H.
      apply app_inv_head in H. rewrite H, rtc_sets_app in Es. lia.
Qed.

Lemma C4_commit_exactly_once_witness :
  nrf24_receive_date_time three_attempts = Done tt three_attempts_end
  /\ exists pre t,
       trace three_attempts_end =
       trace three_attempts ++ pre
         ++ [RadioStopListening; RtcSet t; SerialPrint "+"; SerialPrintln]
       /\ rtc_sets pre = 0%nat
       /\ rtc_sets (pre ++ [RadioStopListening; RtcSet t; SerialPrint "+";
                            SerialPrintln]) = 1%nat
       /\ signature_ok (payload three_attempts_end) = true
       /\ t = makeTime (payload_tm (payload three_attempts_end))
       /\ rtc three_attempts_end = t.
Proof.
  split; [reflexivity|].
  exact (proj1 (C4_commit_exactly_once three_attempts)
               three_attempts_end eq_refl).
Defined.

Example three_attempts_run :
  rtc three_attempts_end = 1595586600
  /\ rtc_sets (trace three_attempts_end) = 1%nat.
Proof. split; reflexivity. Qed.

(** ** Fields and wire format *)

Lemma year_field_range (hi lo : Z) : 0 <= year_field hi lo <= 255.
Proof.
  unfold year_field, to_uint8.
  pose proof (Z.mod_pos_bound
                (to_int16 (Z.lor (to_int16 (Z.shiftl hi 8)) lo - 1970)) 256).
  lia.
Qed.

(** A 16-bit year word, split into its two bytes and put through the year
    expression, gives the word less 1970 modulo 256. *)
Lemma year_field_of_word (year : Z) :
  year_field (b2z (z2b (Z.shiftr year 8))) (b2z (z2b year))
  = (year - 1970) mod 256.
Proof.
  rewrite year_field_mod by apply b2z_range.
  rewrite !b2z_z2b, Z.shiftr_div_pow2 by lia. change (2 ^ 8) with 256.
  Z.div_mod_to_equations. lia.
Qed.

(** C2 (amended): for every field tuple with year offset in [0, 255] (the
    year field has eight bits), month in [1,12], day in [1,31], hour in
    [0,23], minute and second in [0,59], the 32-byte packet that carries
    the calendar year 1970 + offset as its year word, low byte at offset 5
    and high byte at offset 6, and the other five fields as single bytes,
    is accepted and decodes to the same six fields and to the timestamp of
    those fields, which is what [RTC.set] receives. *)
Theorem C2_round_trip (y mo d h mi s wd : Z) :
  0 <= y <= 255 ->
  1 <= mo <= 12 -> 1 <= d <= 31 ->
  0 <= h <= 23 -> 0 <= mi <= 59 -> 0 <= s <= 59 ->
  let p := encode (1970 + y) mo d h mi s wd in
  length p = 32%nat
  /\ signature_ok p = true
  /\ Year (payload_tm p) = y /\ Month (payload_tm p) = mo
  /\ Day (payload_tm p) = d /\ Hour (payload_tm p) = h
  /\ Minute (payload_tm p) = mi /\ Second (payload_tm p) = s
  /\ (forall wd0, makeTime (payload_tm p) = makeTime (mkTm s mi h wd0 d mo y))
  /\ (forall w, payload w = p ->
                rtc_set_time_from_payload w =
                Done true
                     (rtc_written (makeTime (mkTm s mi h 0 d mo y)) w)).
Proof.
  intros Hy Hmo Hd Hh Hmi Hs p.
  assert (Ok : signature_ok p = true) by reflexivity.
  assert (EY : Year (payload_tm p) = y).
  { cbn [Year payload_tm]. unfold p, encode, at_. cbn [nth app signature].
    rewrite year_field_of_word. replace (1970 + y - 1970) with y by lia.
    apply Z.mod_small. lia. }
  assert (EM : Month (payload_tm p) = mo /\ Day (payload_tm p) = d
               /\ Hour (payload_tm p) = h /\ Minute (payload_tm p) = mi
               /\ Second (payload_tm p) = s).
  { cbn [Month Day Hour Minute Second payload_tm].
    unfold p, encode, at_. cbn [nth app signature].
    rewrite !b2z_z2b_small by lia. auto. }
  destruct EM as (EM & ED & EH & EMi & ES).
  assert (T : forall wd0,
             makeTime (payload_tm p) = makeTime (mkTm s mi h wd0 d mo y)).
  { intros wd0. unfold makeTime. rewrite EY, EM, ED, EH, EMi, ES.
    reflexivity. }
  repeat split; auto.
  intros w Hw. rewrite decoder_accepts by (rewrite Hw; exact Ok).
  rewrite Hw, (T 0). reflexivity.
Qed.

Lemma C2_round_trip_witness :
  payload_tm (encode 2020 7 24 10 30 0 3) = mkTm 0 30 10 4 24 7 50
  /\ makeTime (payload_tm (encode (1970 + 50) 7 24 10 30 0 3)) =
     makeTime (mkTm 0 30 10 0 24 7 50).
Proof.
  split; [reflexivity|].
  apply (C2_round_trip 50 7 24 10 30 0 3); lia.
Defined.

(** C2 as stated fails: the tuple with year offset 300 lies in the stated
    ranges, but the year field has eight bits and cannot hold it.  The
    packet whose year word is 1970 + 300 decodes to the year field 44 and
    to another timestamp; the packet whose year word is the offset itself
    decodes to 122 (and, for the offset 50, to 128). *)
Lemma C2_counterexample :
  0 <= 300 <= 65535 /\ 1 <= 7 <= 12 /\ 1 <= 24 <= 31
  /\ 0 <= 10 <= 23 /\ 0 <= 30 <= 59 /\ 0 <= 0 <= 59
  /\ signature_ok (encode (1970 + 300) 7 24 10 30 0 3) = true
  /\ Year (payload_tm (encode (1970 + 300) 7 24 10 30 0 3)) = 44
  /\ Year (payload_tm (encode (1970 + 300) 7 24 10 30 0 3)) <> 300
  /\ makeTime (payload_tm (encode (1970 + 300) 7 24 10 30 0 3))
     <> makeTime (mkTm 0 30 10 4 24 7 300)
  /\ signature_ok (encode 300 7 24 10 30 0 3) = true
  /\ Year (payload_tm (encode 300 7 24 10 30 0 3)) = 122
  /\ Year (payload_tm (encode 300 7 24 10 30 0 3)) <> 300
  /\ Year (payload_tm (encode 50 7 24 10 30 0 3)) = 128
  /\ Year (payload_tm (encode 50 7 24 10 30 0 3)) <> 50.
Proof.
  repeat split; try lia; try reflexivity; vm_compute; discriminate.
Qed.

(** C3 (amended): the buffer [0xFE,'T','I','M','E', 0x32,0x00, 7, 24, 10,
    30, 0, 3] is accepted and decodes to the year field
    (0x0032 - 1970) mod 256 = 128, that is the calendar year 2098, with
    Month 7, Day 24, Hour 10, Minute 30, Second 0 and Weekday 3 % 7 + 1 = 4;
    the timestamp given to [RTC.set] is that of 2098-07-24 10:30:00.  The
    year word is the calendar year itself: with 0xE4, 0x07 (2020) in its
    place the year field is 50 and the timestamp is 1595586600, that of
    2020-07-24 10:30:00 UTC. *)
Theorem C3_scenario_decode (t0 : Z) :
  payload_tm scenario_packet = mkTm 0 30 10 4 24 7 128
  /\ 1970 + Year (payload_tm scenario_packet) = 2098
  /\ makeTime (mkTm 0 30 10 4 24 7 (2098 - 1970)) = 4057036200
  /\ rtc_set_time_from_payload (holding scenario_packet t0) =
     Done true (rtc_written 4057036200 (holding scenario_packet t0))
  /\ payload_tm packet_2020 = mkTm 0 30 10 4 24 7 50
  /\ 1970 + Year (payload_tm packet_2020) = 2020
  /\ rtc_set_time_from_payload (holding packet_2020 t0) =
     Done true (rtc_written 1595586600 (holding packet_2020 t0)).
Proof.
  repeat split.
Qed.

(** C3 as stated fails: the scenario buffer does not decode to the year
    2020, and the timestamp committed is not that of 2020-07-24 10:30:00
    UTC (1595586600). *)
Lemma C3_counterexample :
  signature_ok scenario_packet = true
  /\ 1970 + Year (payload_tm scenario_packet) <> 2020
  /\ Year (payload_tm scenario_packet) <> 0x0032
  /\ makeTime (mkTm 0 30 10 4 24 7 (2020 - 1970)) = 1595586600
  /\ rtc (world_of (rtc_set_time_from_payload (holding scenario_packet 0)))
     <> 1595586600.
Proof.
  repeat split; vm_compute; discriminate.
Qed.

(** ** The older variant *)

(** One turn of the loop of [receiveDateTime] in which a packet is waiting:
    the packet is read and, by the signature test, either decoded and
    returned or reported as invalid, after which the loop goes on. *)
Lemma receive_loop_packet (fuel : nat) (tm : tmElements_t) (timeouts : Z)
      (w : World) (av : list bool) (t : Z) (ms : list Z)
      (d : list byte) (rx : list (list byte)) :
  avail_in w = true :: av ->
  millis_in w = t :: ms ->
  rx_in w = d :: rx ->
  let p := Radio.overwrite d (payload w) in
  let w1 := mkWorld av ms rx (listening w) p (rtc w)
                    (trace w ++ [RadioRead d]) in
  OldClient.receive_loop (S fuel) tm timeouts w =
  if OldClient.signature_ok p then
    Done (makeTime (OldClient.payload_tm tm p))
         (add_events
            [SerialPrint (OldClient.newline ++ "Received: ");
             SerialPrintTime (makeTime (OldClient.payload_tm tm p));
             SerialPrintln] w1)
  else
    OldClient.receive_loop fuel tm timeouts
      (add_events
         [SerialPrint (OldClient.newline ++ "Invalid payload received.");
          SerialPrintln] w1).
Proof.
  intros Ha Hm Hr p w1.
  cbn [OldClient.receive_loop]. rewrite bind_unfold.
  unfold millis. rewrite Hm. rewrite bind_unfold.
  unfold wait_fuel. cbn [avail_in length wait_available].
  rewrite bind_unfold. unfold Radio.available. cbn [avail_in]. rewrite Ha.
  unfold ret at 1. cbn [negb].
  rewrite bind_unfold. unfold Radio.read. cbn [rx_in]. rewrite Hr.
  rewrite bind_unfold. unfold get_payload. cbn [payload].
  fold p. fold w1.
  destruct (OldClient.signature_ok p).
  - unfold OldClient.printDateTime.
    repeat (rewrite bind_unfold, emit_done; cbv beta iota).
    rewrite !add_events_app. reflexivity.
  - repeat (rewrite bind_unfold, emit_done; cbv beta iota).
    rewrite !add_events_app. reflexivity.
Qed.

(** C9 (amended): the older decoder accepts a buffer exactly when bytes
    0-2 are "tim".  The year field is taken from bytes 3-4 read high byte
    first, with 1970 subtracted and the result kept modulo 256: the same
    year expression as in the newer variant, from which it differs in byte
    order only.  Month, Day, Hour, Minute and Second are the raw bytes at
    offsets 5-9.  A buffer whose year bytes hold 2023 gives the year field
    53, calendar year 2023, and [receiveDateTime] returns its timestamp. *)
Theorem C9_old_variant_decode (tm : tmElements_t) (p : list byte) :
  (OldClient.signature_ok p = true <-> firstn 3 p = old_signature)
  /\ Year (OldClient.payload_tm tm p)
     = (at_ p 3 * 256 + at_ p 4 - 1970) mod 256
  /\ (forall year mo d h mi s wd,
         Year (OldClient.payload_tm tm (old_encode year mo d h mi s))
         = Year (payload_tm (encode year mo d h mi s wd)))
  /\ Month (OldClient.payload_tm tm p) = at_ p 5
  /\ Day (OldClient.payload_tm tm p) = at_ p 6
  /\ Hour (OldClient.payload_tm tm p) = at_ p 7
  /\ Minute (OldClient.payload_tm tm p) = at_ p 8
  /\ Second (OldClient.payload_tm tm p) = at_ p 9
  /\ (forall mo d h mi s,
         Year (OldClient.payload_tm tm (old_encode 2023 mo d h mi s)) = 53)
  /\ 1970 + 53 = 2023
  /\ (forall t0,
         OldClient.receiveDateTime tm
           (boot 10 [true] [0] [old_encode 2023 1 2 3 4 5] t0)
         = Done 1672628645
                (mkWorld [] [] [] true (old_encode 2023 1 2 3 4 5) t0
                   [RadioStartListening;
                    RadioRead (old_encode 2023 1 2 3 4 5);
                    SerialPrint (OldClient.newline ++ "Received: ");
                    SerialPrintTime 1672628645; SerialPrintln])).
Proof.
  split; [apply old_signature_ok_iff|].
  split.
  { cbn [Year OldClient.payload_tm].
    apply year_field_mod, b2z_range. }
  split.
  { intros. reflexivity. }
  repeat (split; [reflexivity|]).
  intros t0. reflexivity.
Qed.

(** C9 as stated fails: with the year bytes holding 2023 the buffer is
    accepted, but the year field is 53, the 16-bit value less 1970, not the
    value itself (nor its low eight bits). *)
Lemma C9_counterexample :
  OldClient.signature_ok (old_encode 2023 1 2 3 4 5) = true
  /\ at_ (old_encode 2023 1 2 3 4 5) 3 * 256
     + at_ (old_encode 2023 1 2 3 4 5) 4 = 2023
  /\ Year (OldClient.payload_tm (mkTm 0 0 0 0 0 0 0)
                                (old_encode 2023 1 2 3 4 5)) = 53
  /\ Year (OldClient.payload_tm (mkTm 0 0 0 0 0 0 0)
                                (old_encode 2023 1 2 3 4 5))
     <> at_ (old_encode 2023 1 2 3 4 5) 3 * 256
        + at_ (old_encode 2023 1 2 3 4 5) 4
  /\ Year (OldClient.payload_tm (mkTm 0 0 0 0 0 0 0)
                                (old_encode 2023 1 2 3 4 5))
     <> to_uint8 (at_ (old_encode 2023 1 2 3 4 5) 3 * 256
                  + at_ (old_encode 2023 1 2 3 4 5) 4).
Proof.
  repeat split; vm_compute; discriminate.
Qed.

(** ** The loops stop short only for want of answers *)

Lemma wait_available_progress (fuel : nat) (started timeout : Z) :
  forall w,
    (length (avail_in w) < fuel)%nat ->
    match wait_available fuel started timeout w with
    | Done _ w' => (length (avail_in w') < length (avail_in w))%nat
    | Pending w' => avail_in w' = [] \/ millis_in w' = []
    end.
Proof.
  induction fuel as [|fuel IH]; intros w H; [lia|].
  cbn [wait_available]. rewrite bind_unfold. unfold Radio.available.
  destruct (avail_in w) as [|a av] eqn:Ea; [left; exact Ea|].
  destruct a; [simpl; lia|].
  rewrite bind_unfold. unfold millis. cbn [millis_in].
  destruct (millis_in w) as [|t ms] eqn:Em; [right; reflexivity|].
  destruct (elapsed_gt (to_ulong t) started timeout); [simpl; lia|].
  match goal with
  | |- context [wait_available fuel started timeout ?w1] =>
      assert (L : (length (avail_in w1) < fuel)%nat)
        by (simpl in H |- *; lia);
      pose proof (IH w1 L) as Q;
      destruct (wait_available fuel started timeout w1)
  end.
  - simpl in Q |- *. lia.
  - exact Q.
Qed.

Lemma nrf24_receive_progress (timeout : Z) (w : World) :
  match nrf24_receive timeout w with
  | Done _ w' => (length (avail_in w') < length (avail_in w))%nat
  | Pending w' => starved w'
  end.
Proof.
  unfold nrf24_receive, starved. rewrite bind_unfold.
  unfold Radio.startListening.
  rewrite bind_unfold. unfold millis at 1. cbn [millis_in].
  destruct (millis_in w) as [|t ms] eqn:Em; [simpl; auto|].
  rewrite bind_unfold.
  match goal with
  | |- context [wait_available (wait_fuel ?w1) ?s ?t0 ?w1] =>
      pose proof (wait_available_progress (wait_fuel w1) s t0 w1) as F;
      destruct (wait_available (wait_fuel w1) s t0 w1) as [timed_out w2|w2]
  end; unfold wait_fuel in F; cbn [avail_in] in F;
    specialize (F (Nat.lt_succ_diag_r _)).
  - destruct timed_out; cbn [negb]; rewrite bind_unfold.
    + unfold ret at 1. rewrite bind_unfold. unfold Radio.stopListening.
      unfold ret. simpl. exact F.
    + rewrite bind_unfold. unfold Radio.read.
      destruct (rx_in w2) as [|d rx] eqn:Er; [auto|].
      unfold ret at 1. rewrite bind_unfold. unfold Radio.stopListening.
      unfold ret. simpl. exact F.
  - tauto.
Qed.

(** C6: every call of the poller first switches the radio to listening,
    and a call that returns, with a packet or with a timeout, has switched
    it back as its last action, so that the caller finds the radio not
    listening.  A call is still under way (the radio listening, nothing
    else done) only as long as the surroundings owe it an answer. *)
Theorem C6_poller_leaves_radio_idle (timeout : Z) (w : World) :
  (forall r w',
      nrf24_receive timeout w = Done r w' ->
      listening w' = false
      /\ exists mid,
           trace w' = trace w ++ [RadioStartListening] ++ mid
                              ++ [RadioStopListening]
           /\ ~ In RadioStartListening mid /\ ~ In RadioStopListening mid
           /\ (r = false -> mid = []))
  /\ (forall w',
         nrf24_receive timeout w = Pending w' ->
         listening w' = true
         /\ trace w' = trace w ++ [RadioStartListening]
         /\ starved w').
Proof.
  pose proof (nrf24_receive_spec timeout w) as P.
  pose proof (nrf24_receive_progress timeout w) as Q.
  split.
  - intros r w' H. rewrite H in P.
    destruct P as (Pl & _ & [(-> & d & Pt & _)|(-> & Pt & _)]).
    + split; [exact Pl|]. exists [RadioRead d]. rewrite Pt. simpl.
      repeat split; try discriminate.
      all: intros [X|[]]; discriminate.
    + split; [exact Pl|]. exists []. rewrite Pt. simpl.
      repeat split; auto.
  - intros w' H. rewrite H in P, Q.
    destruct P as (Pl & _ & _ & Pt). auto.
Qed.

Lemma C6_poller_leaves_radio_idle_witness :
  (nrf24_receive 1000 poll_with_packet = Done true poll_with_packet_end
   /\ listening poll_with_packet_end = false
   /\ exists mid,
        trace poll_with_packet_end =
        trace poll_with_packet ++ [RadioStartListening] ++ mid
                               ++ [RadioStopListening]
        /\ ~ In RadioStartListening mid /\ ~ In RadioStopListening mid
        /\ (true = false -> mid = []))
  /\ (nrf24_receive 1000 poll_in_silence = Done false poll_in_silence_end
      /\ listening poll_in_silence_end = false
      /\ exists mid,
           trace poll_in_silence_end =
           trace poll_in_silence ++ [RadioStartListening] ++ mid
                                 ++ [RadioStopListening]
           /\ ~ In RadioStartListening mid /\ ~ In RadioStopListening mid
           /\ (false = false -> mid = []))
  /\ (nrf24_receive 1000 poll_cut_short = Pending poll_cut_short_end
      /\ listening poll_cut_short_end = true
      /\ trace poll_cut_short_end =
         trace poll_cut_short ++ [RadioStartListening]
      /\ starved poll_cut_short_end).
Proof.
  split; [|split].
  - split; [reflexivity|].
    exact (proj1 (C6_poller_leaves_radio_idle 1000 poll_with_packet)
                 true poll_with_packet_end eq_refl).
  - split; [reflexivity|].
    exact (proj1 (C6_poller_leaves_radio_idle 1000 poll_in_silence)
                 false poll_in_silence_end eq_refl).
  - split; [reflexivity|].
    exact (proj2 (C6_poller_leaves_radio_idle 1000 poll_cut_short)
                 poll_cut_short_end eq_refl).
Defined.

(** The end of a turn that does not leave the loop, once more. *)
Lemma loop_continue_progress (fuel : nat) (count : Z) (w1 : World) :
  (forall c v, (length (avail_in v) < fuel)%nat ->
               forall v', receive_date_time_loop fuel c v = Pending v' ->
                          starved v') ->
  (length (avail_in w1) < fuel)%nat ->
  forall w',
    (let count := to_uint16 (count + 1) in
     if count =? 30 then
       debug_println ;;; receive_date_time_loop fuel 0
     else receive_date_time_loop fuel count) w1 = Pending w' ->
    starved w'.
Proof.
  intros IH L w'. cbv zeta.
  destruct (to_uint16 (count + 1) =? 30).
  - rewrite bind_unfold. unfold debug_println. rewrite emit_done.
    cbv beta iota. apply IH. exact L.
  - apply IH. exact L.
Qed.

Lemma receive_date_time_loop_progress (fuel : nat) :
  forall (count : Z) (w : World),
    (length (avail_in w) < fuel)%nat ->
    forall w', receive_date_time_loop fuel count w = Pending w' ->
               starved w'.
Proof.
  induction fuel as [|fuel IH]; intros count w L w'; [lia|].
  cbn [receive_date_time_loop]. rewrite bind_unfold.
  pose proof (nrf24_receive_progress 1000 w) as P.
  destruct (nrf24_receive 1000 w) as [received w1|w1].
  2:{ intros H. inversion H; subst. exact P. }
  assert (L1 : (length (avail_in w1) < fuel)%nat) by lia.
  rewrite bind_unfold.
  destruct received.
  - rewrite bind_unfold.
    destruct (signature_ok (payload w1)) eqn:Sig.
    + rewrite (decoder_accepts w1 Sig).
      rewrite bind_unfold. unfold debug_print. rewrite emit_done.
      unfold ret. simpl. discriminate.
    + rewrite (decoder_rejects w1 Sig).
      mark_step. flash_step.
      apply (loop_continue_progress fuel count _ IH). exact L1.
  - mark_step. flash_step.
    apply (loop_continue_progress fuel count _ IH). exact L1.
Qed.

(** A run of [nrf24_receive_date_time] is cut short only when the recorded
    answers are used up: as long as the surroundings answer, it goes on
    until a packet is accepted. *)
Lemma nrf24_receive_date_time_progress (w w' : World) :
  nrf24_receive_date_time w = Pending w' -> starved w'.
Proof.
  unfold nrf24_receive_date_time. rewrite bind_unfold.
  destruct (receive_date_time_loop (wait_fuel w) 0 w) as [[] w1|w1] eqn:E.
  - unfold debug_println. rewrite emit_done. discriminate.
  - intros H. inversion H; subst.
    apply (receive_date_time_loop_progress (wait_fuel w) 0 w); [|exact E].
    unfold wait_fuel. lia.
Qed.

(** * Further properties of the sketch *)

(** ** The wait of the poller, turn by turn *)

(** [k] empty checks, each followed by a clock reading within the
    timeout, take [k] answers and [k] readings and leave the rest as it
    was. *)
Lemma wait_available_skip (k : nat) :
  forall (fuel : nat) (started timeout : Z) (w : World)
         (ts : list Z) (av : list bool) (ms : list Z),
    avail_in w = repeat false k ++ av ->
    millis_in w = ts ++ ms ->
    length ts = k ->
    Forall (fun t => elapsed_gt (to_ulong t) started timeout = false) ts ->
    wait_available (k + fuel) started timeout w =
    wait_available fuel started timeout
      (mkWorld av ms (rx_in w) (listening w) (payload w) (rtc w) (trace w)).
Proof.
  induction k as [|k IH]; intros fuel started timeout w ts av ms Ha Hm Hl Hf.
  - destruct ts; [|discriminate]. simpl in Ha, Hm.
    destruct w; simpl in *; subst. reflexivity.
  - destruct ts as [|t ts]; [discriminate|].
    inversion Hf as [|? ? Ht Hts]; subst.
    cbn [Nat.add wait_available]. rewrite bind_unfold.
    unfold Radio.available. rewrite Ha. cbn [repeat app].
    rewrite bind_unfold. unfold millis. cbn [millis_in]. rewrite Hm.
    cbn [app]. rewrite Ht.
    rewrite (IH fuel started timeout _ ts av ms); cbn [avail_in millis_in];
      auto.
Qed.

Lemma repeat_false_length (k : nat) (av : list bool) :
  length (repeat false k ++ av) = (k + length av)%nat.
Proof.
  rewrite length_app, repeat_length. reflexivity.
Qed.

(** The poller when the radio stays silent: after [k] empty checks within
    the timeout, the next empty check with the clock past the timeout ends
    the call. *)
Lemma nrf24_receive_silent (timeout : Z) (w : World) (k : nat)
      (t0 : Z) (ts : list Z) (t : Z) (ms : list Z) (av : list bool) :
  avail_in w = repeat false k ++ false :: av ->
  millis_in w = t0 :: ts ++ t :: ms ->
  length ts = k ->
  Forall (fun x => elapsed_gt (to_ulong x) (to_ulong t0) timeout = false) ts ->
  elapsed_gt (to_ulong t) (to_ulong t0) timeout = true ->
  nrf24_receive timeout w =
  Done false
       (mkWorld av ms (rx_in w) false (payload w) (rtc w)
                (trace w ++ [RadioStartListening; RadioStopListening])).
Proof.
  intros Ha Hm Hl Hf Ht.
  unfold nrf24_receive. rewrite bind_unfold. unfold Radio.startListening.
  rewrite bind_unfold. unfold millis at 1. cbn [millis_in]. rewrite Hm.
  rewrite bind_unfold. unfold wait_fuel. cbn [avail_in]. rewrite Ha.
  rewrite repeat_false_length. cbn [length].
  replace (S (k + S (length av))) with (k + S (S (length av)))%nat by lia.
  rewrite (wait_available_skip k _ _ _ _ ts (false :: av) (t :: ms));
    cbn [avail_in millis_in]; auto.
  cbn [wait_available]. rewrite bind_unfold. unfold Radio.available.
  cbn [avail_in]. rewrite bind_unfold. unfold millis. cbn [millis_in].
  rewrite Ht. unfold ret at 1. cbn [negb].
  rewrite bind_unfold. unfold ret at 1.
  rewrite bind_unfold. unfold Radio.stopListening, ret. simpl.
  rewrite <- !app_assoc. reflexivity.
Qed.

(** The poller when a packet comes in time: after [k] empty checks within
    the timeout the radio reports data, and the packet is read. *)
Lemma nrf24_receive_packet (timeout : Z) (w : World) (k : nat)
      (t0 : Z) (ts : list Z) (ms : list Z) (av : list bool)
      (d : list byte) (rx : list (list byte)) :
  avail_in w = repeat false k ++ true :: av ->
  millis_in w = t0 :: ts ++ ms ->
  length ts = k ->
  Forall (fun x => elapsed_gt (to_ulong x) (to_ulong t0) timeout = false) ts ->
  rx_in w = d :: rx ->
  nrf24_receive timeout w =
  Done true
       (mkWorld av ms rx false (Radio.overwrite d (payload w)) (rtc w)
                (trace w ++
                 [RadioStartListening; RadioRead d; RadioStopListening])).
Proof.
  intros Ha Hm Hl Hf Hr.
  unfold nrf24_receive. rewrite bind_unfold. unfold Radio.startListening.
  rewrite bind_unfold. unfold millis at 1. cbn [millis_in]. rewrite Hm.
  rewrite bind_unfold. unfold wait_fuel. cbn [avail_in]. rewrite Ha.
  rewrite repeat_false_length. cbn [length].
  replace (S (k + S (length av))) with (k + S (S (length av)))%nat by lia.
  rewrite (wait_available_skip k _ _ _ _ ts (true :: av) ms);
    cbn [avail_in millis_in]; auto.
  cbn [wait_available]. rewrite bind_unfold. unfold Radio.available.
  cbn [avail_in]. unfold ret at 1. cbn [negb].
  rewrite !bind_unfold. unfold Radio.read. cbn [rx_in]. rewrite Hr.
  unfold ret at 1. rewrite bind_unfold. unfold Radio.stopListening, ret.
  simpl. rewrite <- !app_assoc. reflexivity.
Qed.

(** X1: when the radio stays silent the poller gives up at the first clock
    reading that lies more than [timeout] past the start reading: it
    returns false, reads no packet and leaves the buffer and the RTC as
    they were. *)
Theorem poller_gives_up_when_silent (timeout : Z) (w : World) (k : nat)
        (t0 : Z) (ts : list Z) (t : Z) (ms : list Z) (av : list bool) :
  avail_in w = repeat false k ++ false :: av ->
  millis_in w = t0 :: ts ++ t :: ms ->
  length ts = k ->
  Forall (fun x => elapsed_gt (to_ulong x) (to_ulong t0) timeout = false) ts ->
  elapsed_gt (to_ulong t) (to_ulong t0) timeout = true ->
  nrf24_receive timeout w =
  Done false
       (mkWorld av ms (rx_in w) false (payload w) (rtc w)
                (trace w ++ [RadioStartListening; RadioStopListening])).
Proof.
  apply nrf24_receive_silent.
Qed.

Lemma poller_gives_up_when_silent_witness :
  nrf24_receive 1000
    (boot 32 [false; false; false]
          [4294967000; 4294967290; 704; 705] [scenario_packet] 7) =
  Done false
       (mkWorld [] [] [scenario_packet] false (repeat x00 32) 7
                [RadioStartListening; RadioStopListening]).
Proof.
  apply (poller_gives_up_when_silent 1000
           (boot 32 [false; false; false]
                 [4294967000; 4294967290; 704; 705] [scenario_packet] 7)
           2 4294967000 [4294967290; 704] 705 [] []);
    try reflexivity.
  repeat constructor.
Defined.

(** X2: when the radio reports data after [k] empty checks, each made
    within the timeout, the poller reads that packet into the buffer and
    returns true; the clock is not read again after the last empty
    check. *)
Theorem poller_returns_late_packet (timeout : Z) (w : World) (k : nat)
        (t0 : Z) (ts : list Z) (ms : list Z) (av : list bool)
        (d : list byte) (rx : list (list byte)) :
  avail_in w = repeat false k ++ true :: av ->
  millis_in w = t0 :: ts ++ ms ->
  length ts = k ->
  Forall (fun x => elapsed_gt (to_ulong x) (to_ulong t0) timeout = false) ts ->
  rx_in w = d :: rx ->
  nrf24_receive timeout w =
  Done true
       (mkWorld av ms rx false (Radio.overwrite d (payload w)) (rtc w)
                (trace w ++
                 [RadioStartListening; RadioRead d; RadioStopListening])).
Proof.
  apply nrf24_receive_packet.
Qed.

Lemma poller_returns_late_packet_witness :
  nrf24_receive 1000
    (boot 32 [false; false; true] [10; 500; 1010; 9999] [packet_2020] 7) =
  Done true
       (mkWorld [] [9999] [] false packet_2020 7
                [RadioStartListening; RadioRead packet_2020;
                 RadioStopListening]).
Proof.
  apply (poller_returns_late_packet 1000
           (boot 32 [false; false; true] [10; 500; 1010; 9999]
                 [packet_2020] 7)
           2 10 [500; 1010] [9999] [] packet_2020 []);
    try reflexivity.
  repeat constructor.
Defined.

(** ** What the poller leaves alone *)

Lemma overwrite_length (data buf : list byte) :
  length (Radio.overwrite data buf) = length buf.
Proof.
  unfold Radio.overwrite.
  rewrite length_firstn, length_app, length_skipn. lia.
Qed.

Lemma wait_available_rx (fuel : nat) (started timeout : Z) (w : World) :
  rx_in (world_of (wait_available fuel started timeout w)) = rx_in w.
Proof.
  apply (wait_available_frame fuel started timeout w).
Qed.

(** X3: a call of the poller that returns has not touched the RTC and has
    kept the size of the buffer; after a timeout the buffer and the queue
    of incoming packets are as before, after a success exactly one packet
    has been taken from the queue and written over the buffer. *)
Theorem poller_takes_one_packet_at_most
        (timeout : Z) (w w' : World) (r : bool) :
  nrf24_receive timeout w = Done r w' ->
  rtc w' = rtc w
  /\ length (payload w') = length (payload w)
  /\ (r = false -> payload w' = payload w /\ rx_in w' = rx_in w)
  /\ (r = true ->
      exists d, rx_in w = d :: rx_in w'
                /\ payload w' = Radio.overwrite d (payload w)).
Proof.
  unfold nrf24_receive. rewrite bind_unfold. unfold Radio.startListening.
  rewrite bind_unfold. unfold millis at 1. cbn [millis_in].
  destruct (millis_in w) as [|t ms] eqn:Em; [discriminate|].
  rewrite bind_unfold.
  match goal with
  | |- context [wait_available ?f ?s ?t0 ?w1] =>
      pose proof (wait_available_frame f s t0 w1) as F;
      destruct (wait_available f s t0 w1) as [timed_out w2|w2]
  end; [|discriminate].
  cbn zeta in F; simpl in F. destruct F as (Fl & Fp & Fr & Fx & Ft).
  destruct timed_out; cbn [negb]; rewrite bind_unfold.
  - unfold ret at 1. rewrite bind_unfold. unfold Radio.stopListening, ret.
    intros H. inversion H; subst. simpl.
    rewrite Fr, Fp, Fx. repeat split; auto. discriminate.
  - rewrite bind_unfold. unfold Radio.read.
    destruct (rx_in w2) as [|d rx] eqn:Er; [discriminate|].
    unfold ret at 1. rewrite bind_unfold. unfold Radio.stopListening, ret.
    intros H. inversion H; subst. simpl.
    rewrite Fr, Fp, <- Fx, overwrite_length.
    repeat split; auto; try discriminate.
    intros _. exists d. auto.
Qed.

Lemma poller_takes_one_packet_at_most_witness :
  rx_in (boot 32 [false; true] [0; 10] [garbled; packet_2020] 7) =
  garbled ::
    rx_in (world_of
             (nrf24_receive 1000
                (boot 32 [false; true] [0; 10] [garbled; packet_2020] 7)))
  /\ rtc (world_of
            (nrf24_receive 1000
               (boot 32 [false; true] [0; 10] [garbled; packet_2020] 7)))
     = 7.
Proof.
  destruct (poller_takes_one_packet_at_most 1000
              (boot 32 [false; true] [0; 10] [garbled; packet_2020] 7)
              (world_of
                 (nrf24_receive 1000
                    (boot 32 [false; true] [0; 10]
                          [garbled; packet_2020] 7)))
              true eq_refl) as (Hr & _ & _ & Hd).
  split; [|exact Hr]. reflexivity.
Defined.

(** ** Edges of the decoders and of the elapsed-time test *)

(** X4: a negative [timeout] does not make the poller give up at once: the
    [int] is converted to [unsigned long], so the test holds only when
    more than [2^32 + timeout] milliseconds have passed; with -1 it never
    holds. *)
Theorem negative_timeout_waits (started e timeout : Z) :
  0 <= started < 4294967296 ->
  0 <= e < 4294967296 ->
  -32768 <= timeout < 0 ->
  (elapsed_gt (to_ulong (started + e)) started timeout = true
   <-> 4294967296 + timeout < e)
  /\ elapsed_gt (to_ulong (started + e)) started (-1) = false.
Proof.
  intros Hs He Ht. unfold elapsed_gt, to_ulong.
  assert (D : ((started + e) mod 4294967296 - started) mod 4294967296 = e).
  { Z.div_mod_to_equations. lia. }
  rewrite D. split.
  - rewrite Z.gtb_ltb, Z.ltb_lt.
    replace (timeout mod 4294967296) with (4294967296 + timeout).
    + reflexivity.
    + Z.div_mod_to_equations. lia.
  - rewrite Z.gtb_ltb, Z.ltb_ge. change (-1 mod 4294967296) with 4294967295.
    lia.
Qed.

Lemma negative_timeout_waits_witness :
  (elapsed_gt 4294966600 100 (-1000) = true
   <-> 4294967296 + -1000 < 4294966500)
  /\ elapsed_gt 4294966600 100 (-1) = false.
Proof.
  apply (negative_timeout_waits 100 4294966500 (-1000)); lia.
Defined.

(** X5: no buffer passes both signature tests: what the newer decoder
    accepts the older one rejects, and the other way round. *)
Theorem variants_exclude_each_other (p : list byte) :
  (signature_ok p = true -> OldClient.signature_ok p = false)
  /\ (OldClient.signature_ok p = true -> signature_ok p = false).
Proof.
  unfold signature_ok, OldClient.signature_ok.
  destruct (at_ p 0 =? 254) eqn:A; destruct (at_ p 0 =? 116) eqn:B;
    cbn [andb]; split; intros H; try reflexivity; try discriminate.
  - apply Z.eqb_eq in A, B. lia.
  - apply Z.eqb_eq in A, B. lia.
Qed.

Lemma variants_exclude_each_other_witness :
  OldClient.signature_ok packet_2020 = false
  /\ signature_ok (old_encode 2023 1 2 3 4 5 ++ repeat x00 22) = false.
Proof.
  split.
  - apply (proj1 (variants_exclude_each_other packet_2020)). reflexivity.
  - apply (proj2 (variants_exclude_each_other
                    (old_encode 2023 1 2 3 4 5 ++ repeat x00 22))).
    reflexivity.
Defined.

(** X6: the high byte of the year word (offset 6) has no part in what the
    newer decoder does: two buffers that agree everywhere else are accepted
    or rejected alike and give the same fields, the year field being the
    byte at offset 5 plus 78 modulo 256.  Years 256 apart on the wire are
    not told apart. *)
Theorem year_high_byte_ignored (p q : list byte) :
  (forall i, i <> 6%nat -> nth i p x00 = nth i q x00) ->
  signature_ok p = signature_ok q
  /\ payload_tm p = payload_tm q
  /\ Year (payload_tm p) = (at_ p 5 + 78) mod 256.
Proof.
  intros H.
  assert (E : forall i, i <> 6%nat -> at_ p i = at_ q i).
  { intros i Hi. unfold at_. rewrite (H i Hi). reflexivity. }
  assert (Y : forall r, Year (payload_tm r) = (at_ r 5 + 78) mod 256).
  { intros r. cbn [Year payload_tm].
    apply year_field_low_only, b2z_range. }
  split; [|split].
  - unfold signature_ok. rewrite !E by lia. reflexivity.
  - pose proof (Y p) as Yp. pose proof (Y q) as Yq.
    cbn [Year payload_tm] in Yp, Yq.
    unfold payload_tm. rewrite Yp, Yq, !E by lia. reflexivity.
  - apply Y.
Qed.

Lemma year_high_byte_ignored_witness :
  payload_tm (encode 2276 7 24 10 30 0 3) = payload_tm (encode 2020 7 24 10 30 0 3).
Proof.
  apply (year_high_byte_ignored (encode 2276 7 24 10 30 0 3)
                                (encode 2020 7 24 10 30 0 3)).
  intros i Hi.
  do 33 (destruct i as [|i]; [try reflexivity; congruence|]).
  destruct i; reflexivity.
Defined.

(** ** The synchronisation loop, turn by turn *)

(** A turn in which the poller is cut short. *)
Lemma loop_turn_pending (fuel : nat) (count : Z) (w w1 : World) :
  nrf24_receive 1000 w = Pending w1 ->
  receive_date_time_loop (S fuel) count w = Pending w1.
Proof.
  intros H. cbn [receive_date_time_loop]. rewrite bind_unfold, H.
  reflexivity.
Qed.

(** A turn in which a packet is read and accepted: the loop is left. *)
Lemma loop_turn_accept (fuel : nat) (count : Z) (w w1 : World) :
  nrf24_receive 1000 w = Done true w1 ->
  signature_ok (payload w1) = true ->
  receive_date_time_loop (S fuel) count w =
  Done tt (add_events [SerialPrint "+"]
             (rtc_written (makeTime (payload_tm (payload w1))) w1)).
Proof.
  intros H Sig. cbn [receive_date_time_loop]. rewrite bind_unfold, H.
  cbv beta iota. rewrite bind_unfold.
  rewrite bind_unfold, (decoder_accepts w1 Sig). cbv beta iota.
  mark_step. reflexivity.
Qed.

(** A turn that ends in a timeout or in a rejected packet: the mark and
    the flashes are made, the counter moves on and the loop goes round. *)
Lemma loop_turn_failed (fuel : nat) (count : Z) (w w1 : World) (r : bool) :
  nrf24_receive 1000 w = Done r w1 ->
  (r = true -> signature_ok (payload w1) = false) ->
  receive_date_time_loop (S fuel) count w =
  receive_date_time_loop fuel (next_count count)
    (add_events (failed_turn_events r ++ turn_end_events count) w1).
Proof.
  intros H Sig. cbn [receive_date_time_loop]. rewrite bind_unfold, H.
  cbv beta iota. rewrite bind_unfold.
  assert (E : forall w2 : World,
             (let count0 := to_uint16 (count + 1) in
              if count0 =? 30
              then debug_println;;; receive_date_time_loop fuel 0
              else receive_date_time_loop fuel count0) w2
             = receive_date_time_loop fuel (next_count count)
                 (add_events (turn_end_events count) w2)).
  { intros w2. cbv zeta. unfold next_count, turn_end_events.
    destruct (to_uint16 (count + 1) =? 30).
    - rewrite bind_unfold. unfold debug_println. rewrite emit_done.
      reflexivity.
    - rewrite add_events_nil. reflexivity. }
  destruct r.
  - rewrite bind_unfold, (decoder_rejects w1 (Sig eq_refl)).
    cbv beta iota. mark_step. flash_step.
    rewrite E, !add_events_app. reflexivity.
  - mark_step. flash_step. rewrite E, !add_events_app. reflexivity.
Qed.

(** X7: when a packet with a good signature is the first thing the radio
    reports, after [k] empty checks made within the second a poll lasts,
    the synchronisation returns in its first turn: the RTC holds the
    timestamp decoded from the packet, and the record shows the poll, the
    one [RTC.set], the "+" mark and the line end. *)
Theorem sync_accepts_first_good_packet (w : World) (k : nat)
        (t0 : Z) (ts : list Z) (ms : list Z) (av : list bool)
        (d : list byte) (rx : list (list byte)) :
  avail_in w = repeat false k ++ true :: av ->
  millis_in w = t0 :: ts ++ ms ->
  length ts = k ->
  Forall (fun x => elapsed_gt (to_ulong x) (to_ulong t0) 1000 = false) ts ->
  rx_in w = d :: rx ->
  signature_ok (Radio.overwrite d (payload w)) = true ->
  nrf24_receive_date_time w =
  Done tt
       (mkWorld av ms rx false (Radio.overwrite d (payload w))
                (makeTime (payload_tm (Radio.overwrite d (payload w))))
                (trace w ++
                 [RadioStartListening; RadioRead d; RadioStopListening;
                  RtcSet (makeTime
                            (payload_tm (Radio.overwrite d (payload w))));
                  SerialPrint "+"; SerialPrintln])).
Proof.
  intros Ha Hm Hl Hf Hr Sig.
  unfold nrf24_receive_date_time. rewrite bind_unfold.
  unfold wait_fuel.
  rewrite (loop_turn_accept _ 0 w _
             (nrf24_receive_packet 1000 w k t0 ts ms av d rx
                                   Ha Hm Hl Hf Hr) Sig).
  unfold debug_println. rewrite emit_done.
  unfold add_events, rtc_written. simpl. rewrite <- !app_assoc.
  reflexivity.
Qed.

Lemma sync_accepts_first_good_packet_witness :
  nrf24_receive_date_time
    (boot 32 [false; true] [0; 999; 5000] [packet_2020; garbled] 7) =
  Done tt
       (mkWorld [] [5000] [garbled] false packet_2020 1595586600
                [RadioStartListening; RadioRead packet_2020;
                 RadioStopListening; RtcSet 1595586600;
                 SerialPrint "+"; SerialPrintln]).
Proof.
  apply (sync_accepts_first_good_packet
           (boot 32 [false; true] [0; 999; 5000] [packet_2020; garbled] 7)
           1 0 [999] [5000] [] packet_2020 [garbled]);
    try reflexivity.
  repeat constructor.
Defined.

(** The three ways a turn of the loop can go. *)
Lemma loop_turn_cases (fuel : nat) (count : Z) (w : World) :
  (exists w1,
      nrf24_receive 1000 w = Pending w1
      /\ receive_date_time_loop (S fuel) count w = Pending w1)
  \/ (exists w1,
         nrf24_receive 1000 w = Done true w1
         /\ signature_ok (payload w1) = true
         /\ receive_date_time_loop (S fuel) count w =
            Done tt (add_events [SerialPrint "+"]
                       (rtc_written (makeTime (payload_tm (payload w1)))
                                    w1)))
  \/ (exists r w1,
         nrf24_receive 1000 w = Done r w1
         /\ receive_date_time_loop (S fuel) count w =
            receive_date_time_loop fuel (next_count count)
              (add_events (failed_turn_events r ++ turn_end_events count)
                          w1)).
Proof.
  destruct (nrf24_receive 1000 w) as [r w1|w1] eqn:E.
  - destruct r.
    + destruct (signature_ok (payload w1)) eqn:Sig.
      * right. left. exists w1. repeat split; auto.
        apply loop_turn_accept; assumption.
      * right. right. exists true, w1. split; [reflexivity|].
        apply loop_turn_failed; auto.
    + right. right. exists false, w1. split; [reflexivity|].
      apply loop_turn_failed; auto. discriminate.
  - left. exists w1. split; [reflexivity|].
    apply loop_turn_pending. exact E.
Qed.

Lemma failure_marks_app (a b : list event) :
  failure_marks (a ++ b) = (failure_marks a + failure_marks b)%nat.
Proof.
  induction a as [|e a IH]; [reflexivity|].
  destruct e; simpl; rewrite ?IH; try reflexivity.
  destruct (String.eqb s "." || String.eqb s "-")%bool; simpl; lia.
Qed.

Lemma line_ends_app (a b : list event) :
  line_ends (a ++ b) = (line_ends a + line_ends b)%nat.
Proof.
  induction a as [|e a IH]; [reflexivity|].
  destruct e; simpl; rewrite IH; reflexivity.
Qed.

Lemma flash_events_quiet (n : nat) (onms offms : Z) :
  failure_marks (flash_events n onms offms) = 0%nat
  /\ line_ends (flash_events n onms offms) = 0%nat.
Proof.
  induction n as [|n IH]; [split; reflexivity|exact IH].
Qed.

Lemma failed_turn_counts (r : bool) :
  failure_marks (failed_turn_events r) = 1%nat
  /\ line_ends (failed_turn_events r) = 0%nat.
Proof.
  destruct r; split; reflexivity.
Qed.

(** What a poll adds to the record and does to the radio and the
    buffer. *)
Lemma poll_facts (timeout : Z) (w : World) :
  match nrf24_receive timeout w with
  | Done r w1 =>
      listening w1 = false
      /\ length (payload w1) = length (payload w)
      /\ (length (avail_in w1) < length (avail_in w))%nat
      /\ exists pe, trace w1 = trace w ++ pe
                    /\ failure_marks pe = 0%nat /\ line_ends pe = 0%nat
  | Pending w1 =>
      listening w1 = true /\ payload w1 = payload w
      /\ trace w1 = trace w ++ [RadioStartListening]
  end.
Proof.
  pose proof (nrf24_receive_spec timeout w) as P.
  pose proof (nrf24_receive_progress timeout w) as Q.
  destruct (nrf24_receive timeout w) as [r w1|w1].
  - destruct P as (Pl & _ & [(_ & d & Pt & Pp)|(_ & Pt & Pp)]).
    + rewrite Pp, overwrite_length. repeat split; auto.
      eexists. split; [exact Pt|]. split; reflexivity.
    + rewrite Pp. repeat split; auto.
      eexists. split; [exact Pt|]. split; reflexivity.
  - destruct P as (Pl & _ & Pp & Pt). auto.
Qed.

(** The radio and the buffer through the loop. *)
Lemma receive_date_time_loop_radio (fuel : nat) :
  forall (count : Z) (w : World),
    (length (avail_in w) < fuel)%nat ->
    match receive_date_time_loop fuel count w with
    | Done _ w' =>
        listening w' = false /\ length (payload w') = length (payload w)
    | Pending w' =>
        listening w' = true /\ length (payload w') = length (payload w)
    end.
Proof.
  induction fuel as [|fuel IH]; intros count w L; [lia|].
  pose proof (poll_facts 1000 w) as P.
  destruct (loop_turn_cases fuel count w)
    as [(w1 & E & ->)|[(w1 & E & Sig & ->)|(r & w1 & E & ->)]];
    rewrite E in P.
  - destruct P as (Pl & Pp & _). rewrite Pp. auto.
  - destruct P as (Pl & Pp & _). simpl. auto.
  - destruct P as (Pl & Pp & Pa & _).
    match goal with
    | |- context [receive_date_time_loop fuel ?c ?w2] =>
        assert (L2 : (length (avail_in w2) < fuel)%nat)
          by (cbn [avail_in add_events]; lia);
        pose proof (IH c w2 L2) as Q;
        destruct (receive_date_time_loop fuel c w2)
    end; cbn [payload add_events] in Q; rewrite <- Pp; exact Q.
Qed.

(** ** The record of a synchronisation *)

Lemma receive_date_time_loop_record (fuel : nat) :
  forall (count : Z) (w : World),
    (length (avail_in w) < fuel)%nat ->
    exists evs,
      trace (world_of (receive_date_time_loop fuel count w)) = trace w ++ evs
      /\ sync_record count evs
                     (is_done (receive_date_time_loop fuel count w)).
Proof.
  induction fuel as [|fuel IH]; intros count w L; [lia|].
  pose proof (nrf24_receive_spec 1000 w) as P.
  pose proof (nrf24_receive_progress 1000 w) as Q.
  destruct (loop_turn_cases fuel count w)
    as [(w1 & E & ->)|[(w1 & E & Sig & ->)|(r & w1 & E & ->)]];
    rewrite E in P, Q.
  - destruct P as (_ & _ & _ & Pt).
    exists [RadioStartListening]. split; [exact Pt|]. constructor.
  - destruct P as (_ & _ & [(_ & d & Pt & _)|(X & _)]); [|discriminate].
    eexists. cbn [world_of trace add_events rtc_written is_done].
    rewrite Pt, <- !app_assoc. split; [reflexivity|]. constructor.
  - match goal with
    | |- context [receive_date_time_loop fuel ?c ?w2] =>
        assert (L2 : (length (avail_in w2) < fuel)%nat)
          by (cbn [avail_in add_events]; lia);
        destruct (IH c w2 L2) as (rest & Et & Er)
    end.
    cbn [trace add_events] in Et.
    destruct P as (_ & _ & [(-> & d & Pt & _)|(-> & Pt & _)]).
    + exists (poll_record (Some d) ++ failed_turn_events true
              ++ turn_end_events count ++ rest).
      rewrite Et, Pt, <- !app_assoc. split; [reflexivity|].
      apply (sync_fail count (Some d)). exact Er.
    + exists (poll_record None ++ failed_turn_events false
              ++ turn_end_events count ++ rest).
      rewrite Et, Pt, <- !app_assoc. split; [reflexivity|].
      apply (sync_fail count None). exact Er.
Qed.

Lemma radio_protocol_app (a b : list event) :
  forall s,
    radio_protocol s (a ++ b) =
    match radio_protocol s a with
    | Some s' => radio_protocol s' b
    | None => None
    end.
Proof.
  induction a as [|e a IH]; intros s; [reflexivity|].
  destruct e; cbn [app radio_protocol]; destruct s; auto.
Qed.

Lemma radio_protocol_prefix (a b : list event) (s : bool) :
  radio_protocol s (a ++ b) <> None -> radio_protocol s a <> None.
Proof.
  rewrite radio_protocol_app.
  destruct (radio_protocol s a); congruence.
Qed.

Lemma flash_events_idle (n : nat) (onms offms : Z) :
  radio_protocol false (flash_events n onms offms) = Some false.
Proof.
  induction n as [|n IH]; [reflexivity|exact IH].
Qed.

Lemma failed_turn_idle (r : bool) (count : Z) :
  radio_protocol false (failed_turn_events r ++ turn_end_events count)
  = Some false.
Proof.
  rewrite radio_protocol_app.
  assert (F : radio_protocol false (failed_turn_events r) = Some false).
  { destruct r; cbn [failed_turn_events app radio_protocol];
      apply flash_events_idle. }
  rewrite F. unfold turn_end_events.
  destruct (to_uint16 (count + 1) =? 30); reflexivity.
Qed.

Lemma poll_record_protocol (got : option (list byte)) (s : bool) :
  radio_protocol s (poll_record got) = Some false.
Proof.
  destruct got; reflexivity.
Qed.

(** Along such a record the radio listens during the polls and at no other
    time. *)
Lemma sync_record_protocol (count : Z) (evs : list event) (left : bool) :
  sync_record count evs left ->
  forall s, radio_protocol s evs = Some (negb left).
Proof.
  induction 1 as [c|c d t|c got rest left H IH]; intros s;
    try reflexivity.
  rewrite radio_protocol_app, poll_record_protocol.
  rewrite app_assoc, radio_protocol_app, failed_turn_idle.
  apply IH.
Qed.

Lemma polls_app (a b : list event) :
  polls (a ++ b) = (polls a + polls b)%nat.
Proof.
  induction a as [|e a IH]; [reflexivity|].
  destruct e; simpl; rewrite IH; reflexivity.
Qed.

Lemma flash_events_counts (n : nat) (onms offms : Z) :
  polls (flash_events n onms offms) = 0%nat
  /\ rtc_sets (flash_events n onms offms) = 0%nat.
Proof.
  induction n as [|n IH]; [split; reflexivity|exact IH].
Qed.

Lemma failed_turn_polls (r : bool) (count : Z) :
  polls (failed_turn_events r ++ turn_end_events count) = 0%nat
  /\ rtc_sets (failed_turn_events r ++ turn_end_events count) = 0%nat
  /\ failure_marks (failed_turn_events r ++ turn_end_events count) = 1%nat.
Proof.
  pose proof (flash_events_counts (Z.to_nat 5) 10 10) as (P5 & S5).
  pose proof (flash_events_counts (Z.to_nat 1) 50 50) as (P1 & S1).
  pose proof (flash_events_quiet (Z.to_nat 5) 10 10) as (M5 & _).
  pose proof (flash_events_quiet (Z.to_nat 1) 50 50) as (M1 & _).
  unfold turn_end_events, failed_turn_events.
  destruct r; destruct (to_uint16 (count + 1) =? 30);
    rewrite ?polls_app, ?rtc_sets_app, ?failure_marks_app,
            ?P5, ?S5, ?M5, ?P1, ?S1, ?M1;
    repeat split.
Qed.

Lemma poll_record_counts (got : option (list byte)) :
  polls (poll_record got) = 1%nat
  /\ rtc_sets (poll_record got) = 0%nat
  /\ failure_marks (poll_record got) = 0%nat.
Proof.
  destruct got; repeat split.
Qed.

(** Along such a record every mark is followed by another poll, and
    [RTC.set] is called in the turn that leaves the loop and nowhere
    else. *)
Lemma sync_record_counts (count : Z) (evs : list event) (left : bool) :
  sync_record count evs left ->
  polls evs = (failure_marks evs + 1)%nat
  /\ rtc_sets evs = (if left then 1 else 0)%nat.
Proof.
  induction 1 as [c|c d t|c got rest left H (IHp & IHs)];
    try (split; reflexivity).
  rewrite (app_assoc (failed_turn_events _)).
  pose proof (failed_turn_polls (got_packet got) c) as (A & B & C).
  set (ft := failed_turn_events (got_packet got) ++ turn_end_events c) in *.
  rewrite !polls_app, !failure_marks_app, !rtc_sets_app.
  destruct (poll_record_counts got) as (-> & -> & ->).
  rewrite A, B, C, IHp, IHs. split; lia.
Qed.

(** Where a poll starts in a record that begins with events other than a
    poll start. *)
Lemma start_split (a b pre post : list event) :
  ~ In RadioStartListening a ->
  a ++ b = pre ++ RadioStartListening :: post ->
  exists pre', pre = a ++ pre' /\ b = pre' ++ RadioStartListening :: post.
Proof.
  revert pre. induction a as [|x a IH]; intros pre Hn H.
  - exists pre. auto.
  - destruct pre as [|y pre].
    + simpl in H. injection H as Hx _. exfalso. apply Hn. left. exact Hx.
    + simpl in H. injection H as -> H.
      destruct (IH pre) as (pre' & -> & Hb); auto.
      * intros X. apply Hn. right. exact X.
      * exists pre'. auto.
Qed.

Lemma start_split_last (a pre post : list event) (x : event) :
  x <> RadioStartListening ->
  a ++ [x] = pre ++ RadioStartListening :: post ->
  exists post', a = pre ++ RadioStartListening :: post'.
Proof.
  intros Hx H. destruct post as [|p post].
  - apply app_inj_tail in H. destruct H as (_ & H). contradiction.
  - destruct (@exists_last _ (p :: post)) as (l & y & E); [discriminate|].
    rewrite E in H.
    change (pre ++ RadioStartListening :: l ++ [y])
      with (pre ++ (RadioStartListening :: l) ++ [y]) in H.
    rewrite app_assoc in H. apply app_inj_tail in H.
    destruct H as (H & _). exists l. exact H.
Qed.

Lemma flash_events_no_start (n : nat) (onms offms : Z) :
  ~ In RadioStartListening (flash_events n onms offms).
Proof.
  induction n as [|n IH]; [intros []|].
  cbn [flash_events app]. intros [X|[X|[X|[X|X]]]];
    try discriminate. exact (IH X).
Qed.

Lemma failed_turn_no_start (r : bool) (count : Z) :
  ~ In RadioStartListening (failed_turn_events r ++ turn_end_events count).
Proof.
  rewrite in_app_iff. intros [X|X].
  - destruct r; cbn [failed_turn_events app] in X;
      destruct X as [X|X]; try discriminate;
      exact (flash_events_no_start _ _ _ X).
  - unfold turn_end_events in X.
    destruct (to_uint16 (count + 1) =? 30); [destruct X as [X|[]]|destruct X].
    discriminate.
Qed.

(** Along such a record, entered with the counter below thirty, a line end
    has been written for every thirtieth mark each time a poll starts, and
    at the end of the record. *)
Lemma sync_record_lines (count : Z) (evs : list event) (left : bool) :
  sync_record count evs left ->
  0 <= count < 30 ->
  (forall pre post,
      evs = pre ++ RadioStartListening :: post ->
      Z.of_nat (line_ends pre) = (count + Z.of_nat (failure_marks pre)) / 30)
  /\ Z.of_nat (line_ends evs) = (count + Z.of_nat (failure_marks evs)) / 30.
Proof.
  induction 1 as [c|c d t|c got rest left H IH]; intros C.
  - split.
    + intros pre post E. destruct pre as [|e pre].
      * simpl. rewrite Z.add_0_r, Z.div_small by lia. reflexivity.
      * destruct pre; discriminate.
    + simpl. rewrite Z.add_0_r, Z.div_small by lia. reflexivity.
  - split.
    + intros pre post E. destruct pre as [|e pre].
      * simpl. rewrite Z.add_0_r, Z.div_small by lia. reflexivity.
      * injection E as _ E. exfalso.
        destruct (start_split
                    [RadioRead d; RadioStopListening; RtcSet t;
                     SerialPrint "+"] [] pre post) as (pre' & _ & X).
        -- simpl. intros [Y|[Y|[Y|[Y|[]]]]]; discriminate.
        -- rewrite app_nil_r. exact E.
        -- destruct pre'; discriminate.
    + simpl. rewrite Z.add_0_r, Z.div_small by lia. reflexivity.
  - assert (C2 : 0 <= next_count c < 30).
    { unfold next_count, to_uint16. rewrite Z.mod_small by lia.
      destruct (Z.eqb_spec (c + 1) 30); lia. }
    destruct (IH C2) as (IHp & IHe).
    pose proof (failed_turn_counts (got_packet got)) as (Fm & Fl).
    assert (T : (turn_end_events c = [SerialPrintln]
                 /\ c + 1 = 30 /\ next_count c = 0)
                \/ (turn_end_events c = []
                    /\ c + 1 <> 30 /\ next_count c = c + 1)).
    { unfold turn_end_events, next_count, to_uint16.
      rewrite Z.mod_small by lia.
      destruct (Z.eqb_spec (c + 1) 30); auto. }
    assert (P : exists tl, poll_record got = RadioStartListening :: tl
                           /\ ~ In RadioStartListening tl
                           /\ line_ends tl = 0%nat
                           /\ failure_marks tl = 0%nat).
    { destruct got; eexists; (split; [reflexivity|]); simpl;
        repeat split; intros [X|[X|[]]] || intros [X|[]]; discriminate. }
    destruct P as (tl & Ep & Np & Lp & Mp).
    assert (K : forall tail,
               Z.of_nat (line_ends tail)
               = (next_count c + Z.of_nat (failure_marks tail)) / 30 ->
               Z.of_nat
                 (line_ends
                    (RadioStartListening :: tl
                     ++ (failed_turn_events (got_packet got)
                         ++ turn_end_events c) ++ tail))
               = (c + Z.of_nat
                        (failure_marks
                           (RadioStartListening :: tl
                            ++ (failed_turn_events (got_packet got)
                                ++ turn_end_events c) ++ tail))) / 30).
    { intros tail Ht. cbn [line_ends failure_marks].
      rewrite !line_ends_app, !failure_marks_app, Lp, Mp, Fm, Fl.
      destruct T as [(-> & E30 & N0)|(-> & N30 & N1)];
        rewrite ?N0, ?N1 in Ht; cbn [line_ends failure_marks];
        Z.div_mod_to_equations; lia. }
    rewrite Ep, (app_assoc (failed_turn_events _)). split.
    + intros pre post E. destruct pre as [|e pre].
      * simpl. rewrite Z.add_0_r, Z.div_small by lia. reflexivity.
      * cbn [app] in E. injection E as <- E.
        rewrite app_assoc in E.
        assert (N : ~ In RadioStartListening
                      (tl ++ failed_turn_events (got_packet got)
                          ++ turn_end_events c)).
        { rewrite in_app_iff. intros [X|X]; [exact (Np X)|].
          exact (failed_turn_no_start _ _ X). }
        destruct (start_split _ _ pre post N E) as (pre' & -> & Er).
        rewrite <- app_assoc. apply K. exact (IHp _ _ Er).
    + cbn [app]. apply K. exact IHe.
Qed.

(** ** What keeps a run waiting *)

Lemma wait_available_used (fuel : nat) (started timeout : Z) :
  forall w,
    (length (avail_in w) < fuel)%nat ->
    match wait_available fuel started timeout w with
    | Done timed_out w' =>
        if timed_out
        then exists used, avail_in w = used ++ avail_in w'
        else exists used, avail_in w = used ++ true :: avail_in w'
    | Pending w' => avail_in w' = [] \/ millis_in w' = []
    end.
Proof.
  induction fuel as [|fuel IH]; intros w H; [lia|].
  cbn [wait_available]. rewrite bind_unfold. unfold Radio.available.
  destruct (avail_in w) as [|a av] eqn:Ea; [left; exact Ea|].
  destruct a; [exists []; reflexivity|].
  rewrite bind_unfold. unfold millis. cbn [millis_in].
  destruct (millis_in w) as [|t ms] eqn:Em; [right; reflexivity|].
  destruct (elapsed_gt (to_ulong t) started timeout);
    [exists [false]; reflexivity|].
  match goal with
  | |- context [wait_available fuel started timeout ?w1] =>
      assert (L : (length (avail_in w1) < fuel)%nat)
        by (simpl in H |- *; lia);
      pose proof (IH w1 L) as Q;
      destruct (wait_available fuel started timeout w1) as [timed_out w2|w2]
  end.
  - cbn [avail_in] in Q. destruct timed_out; destruct Q as (used & ->);
      exists (false :: used); reflexivity.
  - exact Q.
Qed.

Lemma nrf24_receive_used (timeout : Z) (w : World) :
  match nrf24_receive timeout w with
  | Done _ w' => exists used, avail_in w = used ++ avail_in w'
  | Pending w' => cut_short w w'
  end.
Proof.
  unfold nrf24_receive, cut_short. rewrite bind_unfold.
  unfold Radio.startListening.
  rewrite bind_unfold. unfold millis at 1. cbn [millis_in].
  destruct (millis_in w) as [|t ms] eqn:Em; [simpl; auto|].
  rewrite bind_unfold.
  match goal with
  | |- context [wait_available (wait_fuel ?w1) ?s ?t0 ?w1] =>
      pose proof (wait_available_used (wait_fuel w1) s t0 w1) as F;
      destruct (wait_available (wait_fuel w1) s t0 w1) as [timed_out w2|w2]
  end; unfold wait_fuel in F; cbn [avail_in] in F;
    specialize (F (Nat.lt_succ_diag_r _)).
  - destruct timed_out; cbn [negb]; rewrite bind_unfold.
    + unfold ret at 1. rewrite bind_unfold. unfold Radio.stopListening.
      unfold ret. simpl. exact F.
    + rewrite bind_unfold. unfold Radio.read.
      destruct (rx_in w2) as [|d rx] eqn:Er; [auto|].
      unfold ret at 1. rewrite bind_unfold. unfold Radio.stopListening.
      unfold ret. simpl. destruct F as (used & ->).
      exists (used ++ [true]). rewrite <- app_assoc. reflexivity.
  - tauto.
Qed.

Lemma receive_date_time_loop_cut_short (fuel : nat) :
  forall (count : Z) (w : World),
    (length (avail_in w) < fuel)%nat ->
    forall w', receive_date_time_loop fuel count w = Pending w' ->
               cut_short w w'.
Proof.
  induction fuel as [|fuel IH]; intros count w L w'; [lia|].
  pose proof (nrf24_receive_used 1000 w) as U.
  pose proof (nrf24_receive_progress 1000 w) as Q.
  destruct (loop_turn_cases fuel count w)
    as [(w1 & E & ->)|[(w1 & E & Sig & ->)|(r & w1 & E & ->)]];
    rewrite E in U, Q.
  - intros H. inversion H; subst. exact U.
  - discriminate.
  - intros H. destruct U as (used & Eu).
    apply IH in H; [|cbn [avail_in add_events]; lia].
    unfold cut_short in *. cbn [avail_in add_events] in H.
    destruct H as [H|[H|(H & u & Hu)]]; auto.
    right. right. split; [exact H|].
    exists (used ++ u). rewrite Eu, Hu, <- app_assoc. reflexivity.
Qed.

(** ** Three properties of every run of the synchronisation *)

(** X8: in every run of [nrf24_receive_date_time], at every point of it,
    the radio listens during the polls and at no other time: packets are
    read while it listens, and every mark, flash of the LED and line end
    and the [RTC.set] are made while it is idle.  The run returns with the
    radio idle, it is cut short only with the radio listening, and the
    buffer keeps its size. *)
Theorem sync_radio_discipline (w : World) :
  exists evs,
    trace (world_of (nrf24_receive_date_time w)) = trace w ++ evs
    /\ radio_protocol (listening w) evs
       = Some (listening (world_of (nrf24_receive_date_time w)))
    /\ (forall pre post,
           evs = pre ++ post -> radio_protocol (listening w) pre <> None)
    /\ listening (world_of (nrf24_receive_date_time w))
       = negb (is_done (nrf24_receive_date_time w))
    /\ length (payload (world_of (nrf24_receive_date_time w)))
       = length (payload w).
Proof.
  unfold nrf24_receive_date_time. rewrite bind_unfold.
  destruct (receive_date_time_loop_record (wait_fuel w) 0 w
              (Nat.lt_succ_diag_r _)) as (evs & Et & Er).
  pose proof (receive_date_time_loop_radio (wait_fuel w) 0 w
                                           (Nat.lt_succ_diag_r _)) as R.
  pose proof (sync_record_protocol _ _ _ Er (listening w)) as Pr.
  destruct (receive_date_time_loop (wait_fuel w) 0 w) as [[] w1|w1];
    cbn [world_of is_done negb] in *.
  - unfold debug_println. rewrite emit_done.
    cbn [world_of is_done negb trace listening payload add_events].
    destruct R as (Rl & Rp).
    assert (Pe : radio_protocol (listening w) (evs ++ [SerialPrintln])
                 = Some false).
    { rewrite radio_protocol_app, Pr. reflexivity. }
    exists (evs ++ [SerialPrintln]).
    rewrite Et, <- app_assoc, Rl. repeat split; auto.
    intros pre post E. apply (radio_protocol_prefix pre post).
    rewrite <- E, Pe. discriminate.
  - destruct R as (Rl & Rp). exists evs.
    rewrite Rl. repeat split; auto.
    intros pre post E. apply (radio_protocol_prefix pre post).
    rewrite <- E, Pr. discriminate.
Qed.

(** X9: each time [nrf24_receive_date_time] starts a poll, the number of
    line ends written so far is the number of "." and "-" marks written so
    far divided by thirty: the status line is broken once for every thirty
    failed attempts.  The same count holds when a run is cut short, and
    when it has returned, with the one line end more that follows the
    "+". *)
Theorem sync_line_end_every_thirty_marks (w : World) :
  exists evs,
    trace (world_of (nrf24_receive_date_time w)) = trace w ++ evs
    /\ (forall pre post,
           evs = pre ++ RadioStartListening :: post ->
           Z.of_nat (line_ends pre) = Z.of_nat (failure_marks pre) / 30)
    /\ Z.of_nat (line_ends evs)
       = Z.of_nat (failure_marks evs) / 30
         + (if is_done (nrf24_receive_date_time w) then 1 else 0).
Proof.
  unfold nrf24_receive_date_time. rewrite bind_unfold.
  destruct (receive_date_time_loop_record (wait_fuel w) 0 w
              (Nat.lt_succ_diag_r _)) as (evs & Et & Er).
  destruct (sync_record_lines _ _ _ Er) as (Lp & Le); [lia|].
  destruct (receive_date_time_loop (wait_fuel w) 0 w) as [[] w1|w1];
    cbn [world_of is_done] in *.
  - unfold debug_println. rewrite emit_done.
    cbn [world_of is_done trace add_events].
    exists (evs ++ [SerialPrintln]).
    rewrite Et, <- app_assoc. split; [reflexivity|]. split.
    + intros pre post E.
      destruct (start_split_last evs pre post SerialPrintln) as (post' & E');
        [discriminate|exact E|].
      rewrite (Lp _ _ E'). rewrite Z.add_0_l. reflexivity.
    + rewrite line_ends_app, failure_marks_app.
      cbn [line_ends failure_marks]. rewrite Nat.add_0_r.
      rewrite Z.add_0_l in Le. lia.
  - exists evs. split; [exact Et|]. split.
    + intros pre post E. rewrite (Lp _ _ E), Z.add_0_l. reflexivity.
    + rewrite Z.add_0_l in Le. lia.
Qed.

(** X10: [nrf24_receive_date_time] does not give up: in every run each
    "." or "-" mark is followed by another poll, so that the polls started
    are one more than the marks.  A run that returns has accepted a packet
    and called [RTC.set] once, with the timestamp decoded from it; a run is
    cut short only inside a poll, when the radio owes an answer, the clock
    a reading, or data was reported and there is no packet to read. *)
Theorem sync_keeps_polling (w : World) :
  exists evs,
    trace (world_of (nrf24_receive_date_time w)) = trace w ++ evs
    /\ polls evs = (failure_marks evs + 1)%nat
    /\ match nrf24_receive_date_time w with
       | Done _ w' =>
           rtc_sets evs = 1%nat
           /\ signature_ok (payload w') = true
           /\ rtc w' = makeTime (payload_tm (payload w'))
       | Pending w' =>
           rtc_sets evs = 0%nat /\ listening w' = true /\ cut_short w w'
       end.
Proof.
  unfold nrf24_receive_date_time. rewrite bind_unfold.
  destruct (receive_date_time_loop_record (wait_fuel w) 0 w
              (Nat.lt_succ_diag_r _)) as (evs & Et & Er).
  destruct (sync_record_counts _ _ _ Er) as (Cp & Cs).
  pose proof (receive_date_time_loop_spec (wait_fuel w) 0 w) as S.
  pose proof (receive_date_time_loop_radio (wait_fuel w) 0 w
                                           (Nat.lt_succ_diag_r _)) as R.
  pose proof (receive_date_time_loop_cut_short (wait_fuel w) 0 w
                                               (Nat.lt_succ_diag_r _)) as U.
  destruct (receive_date_time_loop (wait_fuel w) 0 w) as [[] w1|w1];
    cbn [world_of is_done] in *.
  - unfold debug_println. rewrite emit_done.
    cbn [world_of trace payload rtc add_events].
    destruct S as (_ & _ & _ & Sig & Sr).
    exists (evs ++ [SerialPrintln]).
    rewrite Et, <- app_assoc, polls_app, failure_marks_app, rtc_sets_app.
    cbn [polls failure_marks rtc_sets]. rewrite !Nat.add_0_r.
    repeat split; auto.
  - exists evs. destruct R as (Rl & _). repeat split; auto.
Qed.

Example thirty_one_timeouts_run :
  nrf24_receive_date_time thirty_one_timeouts
  = Pending thirty_one_timeouts_end
  /\ polls (trace thirty_one_timeouts_end) = 32%nat
  /\ failure_marks (trace thirty_one_timeouts_end) = 31%nat
  /\ line_ends (trace thirty_one_timeouts_end) = 1%nat
  /\ rtc_sets (trace thirty_one_timeouts_end) = 0%nat
  /\ radio_protocol false (trace thirty_one_timeouts_end) = Some true.
Proof. repeat split; vm_compute; reflexivity. Qed.

Example data_without_packet_run :
  nrf24_receive_date_time data_without_packet
  = Pending data_without_packet_end
  /\ avail_in data_without_packet_end = [false]
  /\ millis_in data_without_packet_end = [6]
  /\ rx_in data_without_packet_end = []
  /\ avail_in data_without_packet = [false] ++ true :: [false].
Proof. repeat split. Qed.

Example three_attempts_record :
  polls (trace three_attempts_end) = 3%nat
  /\ failure_marks (trace three_attempts_end) = 2%nat
  /\ line_ends (trace three_attempts_end) = 1%nat
  /\ radio_protocol false (trace three_attempts_end) = Some false.
Proof. repeat split. Qed.

(** ** The older sketch: the whole of [receiveDateTime] *)

Lemma old_loop_post_here (tm : tmElements_t) (w : World) :
  old_loop_post tm w (Pending w).
Proof.
  unfold old_loop_post. simpl. repeat split; auto.
  exists []. rewrite app_nil_r. auto.
Qed.

Lemma old_loop_post_extend (tm : tmElements_t) (w w1 : World)
      (evs : list event) (o : outcome Z) :
  listening w1 = listening w ->
  rtc w1 = rtc w ->
  length (payload w1) = length (payload w) ->
  trace w1 = trace w ++ evs ->
  rtc_sets evs = 0%nat ->
  ~ In RadioStopListening evs ->
  old_loop_post tm w1 o -> old_loop_post tm w o.
Proof.
  intros Hl Hr Hp Ht Hs Hn (Ol & Or & Op & (evs' & Et & Es & En) & Oo).
  unfold old_loop_post. rewrite Ol, Or, Op. repeat split; auto.
  exists (evs ++ evs'). rewrite Et, Ht, <- app_assoc, rtc_sets_app, Hs, Es.
  repeat split; auto. rewrite in_app_iff. tauto.
Qed.

Lemma receive_loop_spec (fuel : nat) :
  forall (tm : tmElements_t) (timeouts : Z) (w : World),
    old_loop_post tm w (OldClient.receive_loop fuel tm timeouts w).
Proof.
  induction fuel as [|fuel IH]; intros tm timeouts w.
  - apply old_loop_post_here.
  - cbn [OldClient.receive_loop]. rewrite bind_unfold. unfold millis.
    destruct (millis_in w) as [|t ms] eqn:Em; [apply old_loop_post_here|].
    rewrite bind_unfold.
    match goal with
    | |- context [wait_available ?f ?s ?t0 ?w1] =>
        pose proof (wait_available_frame f s t0 w1) as F;
        destruct (wait_available f s t0 w1) as [timed_out w2|w2]
    end; cbn zeta in F; simpl in F;
      destruct F as (Fl & Fp & Fr & Fx & Ft).
    2:{ apply (old_loop_post_extend tm w w2 []); auto.
        - rewrite Fp. reflexivity.
        - rewrite app_nil_r. exact Ft.
        - apply old_loop_post_here. }
    destruct timed_out; cbn [negb].
    + rewrite bind_unfold, emit_done. cbv beta iota zeta.
      destruct (to_int16 (timeouts + 1) >=? 25).
      * rewrite bind_unfold, emit_done. cbv beta iota.
        rewrite add_events_app.
        eapply old_loop_post_extend with
            (evs := ([SerialPrint "."] ++ [SerialPrintln]));
          [| | | | | |apply IH]; cbn [listening rtc payload trace add_events];
          auto.
        -- rewrite Fp. reflexivity.
        -- rewrite Ft. reflexivity.
        -- simpl. intros [X|[X|[]]]; discriminate.
      * eapply old_loop_post_extend with
            (evs := [SerialPrint "."]);
          [| | | | | |apply IH]; cbn [listening rtc payload trace add_events];
          auto.
        -- rewrite Fp. reflexivity.
        -- rewrite Ft. reflexivity.
        -- simpl. intros [X|[]]; discriminate.
    + rewrite bind_unfold. unfold Radio.read.
      destruct (rx_in w2) as [|d rx] eqn:Er.
      { apply (old_loop_post_extend tm w w2 []); auto.
        - rewrite Fp. reflexivity.
        - rewrite app_nil_r. exact Ft.
        - apply old_loop_post_here. }
      rewrite bind_unfold. unfold get_payload. cbn [payload].
      destruct (OldClient.signature_ok (Radio.overwrite d (payload w2)))
        eqn:Sig.
      * unfold OldClient.printDateTime.
        repeat (rewrite bind_unfold, emit_done; cbv beta iota).
        rewrite !add_events_app. unfold ret, old_loop_post.
        cbn [world_of listening rtc payload trace add_events].
        rewrite Fp in Sig.
        rewrite overwrite_length, Fl, Fr, Fp, Ft.
        repeat split; auto.
        eexists. rewrite <- !app_assoc. split; [reflexivity|].
        split; [reflexivity|].
        simpl. intros [X|[X|[X|[X|[]]]]]; discriminate.
      * repeat (rewrite bind_unfold, emit_done; cbv beta iota).
        rewrite !add_events_app.
        eapply old_loop_post_extend with
            (evs := ([RadioRead d]
                  ++ [SerialPrint
                        (OldClient.newline ++ "Invalid payload received.")]
                  ++ [SerialPrintln]));
          [| | | | | |apply IH]; cbn [listening rtc payload trace add_events];
          auto.
        -- rewrite overwrite_length, Fp. reflexivity.
        -- rewrite Ft, <- !app_assoc. reflexivity.
        -- simpl. intros [X|[X|[X|[]]]]; discriminate.
Qed.

(** X11: the older [receiveDateTime] returns only with an accepted buffer
    and the timestamp decoded from it; it does not set the RTC itself, and
    it never calls [stopListening], so that the radio is still listening
    when it returns. *)
Theorem old_receive_returns_listening
        (tm : tmElements_t) (w w' : World) (t : Z) :
  OldClient.receiveDateTime tm w = Done t w' ->
  listening w' = true
  /\ rtc w' = rtc w
  /\ OldClient.signature_ok (payload w') = true
  /\ t = makeTime (OldClient.payload_tm tm (payload w'))
  /\ exists evs,
       trace w' = trace w ++ RadioStartListening :: evs
       /\ rtc_sets evs = 0%nat /\ ~ In RadioStopListening evs.
Proof.
  unfold OldClient.receiveDateTime. rewrite bind_unfold.
  unfold Radio.startListening.
  match goal with
  | |- OldClient.receive_loop ?f tm 0 ?w1 = _ -> _ =>
      pose proof (receive_loop_spec f tm 0 w1) as P
  end.
  intros H. rewrite H in P.
  destruct P as (Pl & Pr & _ & (evs & Pt & Ps & Pn) & Sig & Et).
  cbn [world_of listening rtc trace] in Pl, Pr, Pt.
  repeat split; auto.
  exists evs. rewrite Pt, <- app_assoc. auto.
Qed.

Lemma old_receive_returns_listening_witness :
  OldClient.receiveDateTime (mkTm 0 0 0 0 0 0 0) old_start
  = Done 1672628645 old_start_end
  /\ listening old_start_end = true
  /\ rtc old_start_end = rtc old_start.
Proof.
  split; [reflexivity|].
  destruct (old_receive_returns_listening (mkTm 0 0 0 0 0 0 0)
              old_start old_start_end 1672628645 eq_refl)
    as (Hl & Hr & _).
  split; assumption.
Defined.

(** ** Flashing the LED *)

Lemma flash_loop_done (n : nat) (pin onms offms : Z) (w : World) :
  LedUtil.flash_loop n pin onms offms w
  = Done tt (add_events (flash_events_on pin n onms offms) w).
Proof.
  revert w. induction n as [|n IH]; intros w.
  - simpl. unfold ret. rewrite add_events_nil. reflexivity.
  - cbn [LedUtil.flash_loop flash_events_on].
    repeat (rewrite bind_unfold, emit_done; cbv beta iota).
    rewrite IH, !add_events_app. reflexivity.
Qed.


Lemma flash_events_on_measure (pin : Z) (n : nat) (onms offms : Z) :
  length (flash_events_on pin n onms offms) = (4 * n)%nat
  /\ total_delay (flash_events_on pin n onms offms)
     = Z.of_nat n * (to_ulong onms + to_ulong offms)
  /\ rtc_sets (flash_events_on pin n onms offms) = 0%nat.
Proof.
  induction n as [|n (IHl & IHd & IHs)]; [repeat split|].
  cbn [flash_events_on app length total_delay rtc_sets].
  rewrite IHl, IHd. repeat split; [lia|lia|exact IHs].
Qed.

Lemma flash_events_on_last (pin : Z) (n : nat) (onms offms : Z) :
  last_level (to_uint8 pin) (flash_events_on pin (S n) onms offms)
  = Some false.
Proof.
  induction n as [|n IH].
  - simpl. rewrite Z.eqb_refl. reflexivity.
  - change (flash_events_on pin (S (S n)) onms offms)
      with ([DigitalWrite (to_uint8 pin) true; Delay (to_ulong onms);
             DigitalWrite (to_uint8 pin) false; Delay (to_ulong offms)]
            ++ flash_events_on pin (S n) onms offms).
    cbn [app last_level]. rewrite IH. reflexivity.
Qed.

(** X12: [flash_led(pin, count, onms, offms)], on [int] arguments, always
    returns and touches nothing but the pin and the clock: for a count of
    zero or less it does nothing; otherwise it writes the pin (the low
    eight bits of [pin]) high and low [count] times and leaves it low.  The
    time spent in [delay] is [count * (onms + offms)] milliseconds when
    both times are non-negative; a negative time reaches [delay] as
    [2^32 + time]. *)
Theorem flash_led_effect (pin count onms offms : Z) (w : World) :
  -32768 <= pin <= 32767 ->
  -32768 <= count <= 32767 ->
  -32768 <= onms <= 32767 ->
  -32768 <= offms <= 32767 ->
  LedUtil.flash_led pin count onms offms w
  = Done tt (add_events (flash_events_on pin (Z.to_nat count) onms offms) w)
  /\ length (flash_events_on pin (Z.to_nat count) onms offms)
     = (4 * Z.to_nat count)%nat
  /\ total_delay (flash_events_on pin (Z.to_nat count) onms offms)
     = Z.max 0 count
       * ((if onms <? 0 then 4294967296 + onms else onms)
          + (if offms <? 0 then 4294967296 + offms else offms))
  /\ rtc_sets (flash_events_on pin (Z.to_nat count) onms offms) = 0%nat
  /\ (0 < count ->
      last_level (pin mod 256)
                 (flash_events_on pin (Z.to_nat count) onms offms)
      = Some false)
  /\ (count <= 0 -> LedUtil.flash_led pin count onms offms w = Done tt w).
Proof.
  intros Hp Hc Hon Hoff.
  destruct (flash_events_on_measure pin (Z.to_nat count) onms offms)
    as (Hl & Hd & Hs).
  assert (R : LedUtil.flash_led pin count onms offms w
              = Done tt (add_events
                           (flash_events_on pin (Z.to_nat count) onms offms)
                           w)).
  { unfold LedUtil.flash_led. apply flash_loop_done. }
  assert (U : forall x, -32768 <= x <= 32767 ->
                        to_ulong x = if x <? 0 then 4294967296 + x else x).
  { intros x Hx. unfold to_ulong. destruct (Z.ltb_spec x 0).
    - Z.div_mod_to_equations. lia.
    - apply Z.mod_small. lia. }
  split; [exact R|]. split; [exact Hl|]. split.
  { rewrite Hd, (U onms Hon), (U offms Hoff). f_equal. lia. }
  split; [exact Hs|]. split.
  - intros H0. destruct (Z.to_nat count) as [|n] eqn:E; [lia|].
    apply flash_events_on_last.
  - intros H0. rewrite R.
    replace (Z.to_nat count) with 0%nat by lia.
    cbn [flash_events_on]. rewrite add_events_nil. reflexivity.
Qed.

Lemma flash_led_effect_witness :
  LedUtil.flash_led 8 1 (-1) (-5) (holding [] 0)
  = Done tt
         (add_events
            [DigitalWrite 8 true; Delay 4294967295;
             DigitalWrite 8 false; Delay 4294967291]
            (holding [] 0))
  /\ total_delay (flash_events_on 264 (Z.to_nat 3) 800 200) = 3 * (800 + 200)
  /\ last_level 8 (flash_events_on 264 (Z.to_nat 3) 800 200) = Some false.
Proof.
  split; [|split].
  - apply (flash_led_effect 8 1 (-1) (-5) (holding [] 0)); lia.
  - apply (flash_led_effect 264 3 800 200 (holding [] 0)); lia.
  - apply (flash_led_effect 264 3 800 200 (holding [] 0)); lia.
Defined.



(** ** Writing a time *)

Lemma string_app_assoc (a b c : string) :
  ((a ++ b) ++ c = a ++ (b ++ c))%string.
Proof.
  induction a as [|x a IH]; [reflexivity|].
  simpl. rewrite IH. reflexivity.
Qed.

(** A number from 0 to 99 behind its padding is written as its two
    digits, the first of them "0" below ten. *)
Lemma padded_two (v : Z) :
  0 <= v <= 99 ->
  ((if (v <? 10)%Z then "0" else "") ++ decimal v)%string = two_digits v.
Proof.
  intros H.
  assert (A : forallb
                (fun n => String.eqb
                            ((if (Z.of_nat n <? 10)%Z then "0" else "")
                             ++ decimal (Z.of_nat n))%string
                            (two_digits (Z.of_nat n)))
                (seq 0 100) = true) by (vm_compute; reflexivity).
  rewrite forallb_forall in A.
  specialize (A (Z.to_nat v)). rewrite Z2Nat.id in A by lia.
  apply String.eqb_eq, A, in_seq. lia.
Qed.

(** A year from 1000 to 9999 is written as its four digits. *)
Lemma year_four (y : Z) :
  1000 <= y <= 9999 -> decimal y = four_digits y.
Proof.
  intros H.
  assert (A : forallb
                (fun n => String.eqb (decimal (Z.of_nat n))
                                     (four_digits (Z.of_nat n)))
                (seq (Z.to_nat 1000) (Z.to_nat 9000)) = true)
    by (vm_compute; reflexivity).
  rewrite forallb_forall in A.
  specialize (A (Z.to_nat y)). rewrite Z2Nat.id in A by lia.
  apply String.eqb_eq, A, in_seq. lia.
Qed.

(** X14: [debug_print(time_t)] (and [printDateTime], which has the same
    body) writes a time whose year has four digits and whose month, day,
    hour, minute and second lie between 0 and 99 as the nineteen
    characters "YYYY-MM-DD HH:MM:SS": the four digits of the year, and two
    digits for every other field, the first of them "0" when the field is
    below ten. *)
Theorem debug_print_time_layout
        (year month day hour minute second : Z -> Z) (t : Z) (w : World) :
  1000 <= year t <= 9999 ->
  0 <= month t <= 99 -> 0 <= day t <= 99 ->
  0 <= hour t <= 99 -> 0 <= minute t <= 99 -> 0 <= second t <= 99 ->
  exists evs,
    debug_print_time year month day hour minute second t w
    = Done tt (add_events evs w)
    /\ printed_text evs
       = time_text (year t) (month t) (day t) (hour t) (minute t) (second t)
    /\ String.length (printed_text evs) = 19%nat
    /\ String.get 4 (printed_text evs) = Some "-"%char
    /\ String.get 7 (printed_text evs) = Some "-"%char
    /\ String.get 10 (printed_text evs) = Some " "%char
    /\ String.get 13 (printed_text evs) = Some ":"%char
    /\ String.get 16 (printed_text evs) = Some ":"%char
    /\ rtc_sets evs = 0%nat.
Proof.
  intros Hy Hmo Hd Hh Hmi Hs.
  eexists. split.
  { unfold debug_print_time, debug_print_int, debug_print.
    repeat (rewrite bind_unfold, emit_done; cbv beta iota).
    rewrite emit_done, !add_events_app. reflexivity. }
  cbn [app printed_text rtc_sets].
  rewrite (year_four _ Hy).
  rewrite <- !(string_app_assoc (if _ <? 10 then "0"%string else ""%string)).
  rewrite (padded_two _ Hmo), (padded_two _ Hd), (padded_two _ Hh),
          (padded_two _ Hmi), (padded_two _ Hs).
  repeat split.
Qed.

Lemma debug_print_time_layout_witness :
  exists evs,
    debug_print_time (fun _ => 2020) (fun _ => 7) (fun _ => 24)
                     (fun _ => 10) (fun _ => 30) (fun _ => 0)
                     1595586600 (holding [] 0)
    = Done tt (add_events evs (holding [] 0))
    /\ printed_text evs = time_text 2020 7 24 10 30 0
    /\ String.length (printed_text evs) = 19%nat
    /\ String.get 4 (printed_text evs) = Some "-"%char
    /\ String.get 7 (printed_text evs) = Some "-"%char
    /\ String.get 10 (printed_text evs) = Some " "%char
    /\ String.get 13 (printed_text evs) = Some ":"%char
    /\ String.get 16 (printed_text evs) = Some ":"%char
    /\ rtc_sets evs = 0%nat.
Proof.
  apply (debug_print_time_layout
           (fun _ => 2020) (fun _ => 7) (fun _ => 24)
           (fun _ => 10) (fun _ => 30) (fun _ => 0)
           1595586600 (holding [] 0));
    cbv beta; lia.
Defined.

Example time_text_2020 :
  time_text 2020 7 24 10 30 0 = "2020-07-24 10:30:00"%string
  /\ time_text 2023 1 2 3 4 5 = "2023-01-02 03:04:05"%string.
Proof. split; reflexivity. Qed.

Example debug_print_time_2020 :
  printed_text
    (trace (world_of
              (debug_print_time (fun _ => 2020) (fun _ => 7) (fun _ => 24)
                                (fun _ => 10) (fun _ => 30) (fun _ => 0)
                                1595586600 (holding [] 0))))
  = "2020-07-24 10:30:00"%string.
Proof. vm_compute. reflexivity. Qed.
